(** * Vehicle telemetry simulator: a shallow embedding of the generator

    This development embeds the stateful telemetry generator of the
    simulator (app/simulator/generator.py), the identifier configuration
    (app/config.py) and the record model (app/models/telemetry_data.py),
    the timestamp of a packet and the synchronous part of the connection
    manager (app/api/websocket.py), and proves properties of the per-tick
    transition.

    Conventions of the embedding.
    - Python [int] is [Z]; Python [float] is an exact rational [Q]
      (rounding error of binary64 arithmetic is not modelled; [round] and
      the [.5f] format round the exact value half-to-even, as CPython does).
    - The class-level dictionary [_base_state] is a record with one field
      per key; the key [fuel_used_total], absent until first written, is an
      [option].
    - The [random] module is a state monad over an entropy stream: every
      call consumes one raw value and maps it into the range the call
      documents, following CPython's own definitions ([randint] through
      [_randbelow], [uniform] through [random], [sample] by pool
      selection).
    - Exceptions are values of [exn]; a mutation made before a raise
      stays in the returned world. *)

From Stdlib Require Import ZArith QArith Qround Qminmax List String Ascii Bool.
From Stdlib Require Import Lia Lqa DecimalString Permutation.
From Stdlib Require DecimalPos DecimalN DecimalFacts.
Import ListNotations.

Set Implicit Arguments.

Local Open Scope Z_scope.

(** ** Exceptions and results *)

Inductive exn : Type :=
| RuntimeError (msg : string)
| ValueError (offending : string)
| ValidationError (fields : list string).

Inductive result (A : Type) : Type :=
| Ok (a : A)
| Raise (e : exn).

Arguments Ok {A} a.
Arguments Raise {A} e.


(** ** The mutable vehicle state (the dictionary [_base_state]) *)

Module State.

Record t : Type := mk {
  lat : Q;
  lon : Q;
  total_odo : Z;
  trip_odo : Z;
  fuel_level : Q;
  oil_level : Z;
  ignition : Z;
  in_motion : Z;
  speed : Z;
  fuel_used_total : option Q
}.

Definition set_lat (v : Q) (b : t) : t :=
  mk v (lon b) (total_odo b) (trip_odo b) (fuel_level b) (oil_level b)
     (ignition b) (in_motion b) (speed b) (fuel_used_total b).
Definition set_lon (v : Q) (b : t) : t :=
  mk (lat b) v (total_odo b) (trip_odo b) (fuel_level b) (oil_level b)
     (ignition b) (in_motion b) (speed b) (fuel_used_total b).
Definition set_total_odo (v : Z) (b : t) : t :=
  mk (lat b) (lon b) v (trip_odo b) (fuel_level b) (oil_level b)
     (ignition b) (in_motion b) (speed b) (fuel_used_total b).
Definition set_trip_odo (v : Z) (b : t) : t :=
  mk (lat b) (lon b) (total_odo b) v (fuel_level b) (oil_level b)
     (ignition b) (in_motion b) (speed b) (fuel_used_total b).
Definition set_fuel_level (v : Q) (b : t) : t :=
  mk (lat b) (lon b) (total_odo b) (trip_odo b) v (oil_level b)
     (ignition b) (in_motion b) (speed b) (fuel_used_total b).
Definition set_ignition (v : Z) (b : t) : t :=
  mk (lat b) (lon b) (total_odo b) (trip_odo b) (fuel_level b) (oil_level b)
     v (in_motion b) (speed b) (fuel_used_total b).
Definition set_in_motion (v : Z) (b : t) : t :=
  mk (lat b) (lon b) (total_odo b) (trip_odo b) (fuel_level b) (oil_level b)
     (ignition b) v (speed b) (fuel_used_total b).
Definition set_speed (v : Z) (b : t) : t :=
  mk (lat b) (lon b) (total_odo b) (trip_odo b) (fuel_level b) (oil_level b)
     (ignition b) (in_motion b) v (fuel_used_total b).
Definition set_fuel_used_total (v : Q) (b : t) : t :=
  mk (lat b) (lon b) (total_odo b) (trip_odo b) (fuel_level b) (oil_level b)
     (ignition b) (in_motion b) (speed b) (Some v).

(** [d.get('fuel_used_total', default)] *)
Definition get_fuel_used_total (default : Q) (b : t) : Q :=
  match fuel_used_total b with Some v => v | None => default end.

End State.

(** ** The world threaded through the generator *)

Record rng : Type := mk_rng {
  stream : nat -> N;
  cursor : nat
}.

Record world : Type := mk_world {
  base : State.t;
  entropy : rng
}.

Definition Sim (A : Type) : Type := world -> A * world.

Definition ret {A} (a : A) : Sim A := fun w => (a, w).

Definition bind {A B} (c : Sim A) (k : A -> Sim B) : Sim B :=
  fun w => let (a, w') := c w in k a w'.

Declare Scope sim_scope.
Delimit Scope sim_scope with sim.
Notation "x <- c ;; k" := (bind c (fun x => k))
  (at level 61, c at next level, right associativity) : sim_scope.
Notation "c ;;; k" := (bind c (fun _ => k))
  (at level 61, right associativity) : sim_scope.

Definition read {A} (f : State.t -> A) : Sim A :=
  fun w => (f (base w), w).

Definition modify (f : State.t -> State.t) : Sim unit :=
  fun w => (tt, mk_world (f (base w)) (entropy w)).

(** One raw value of the entropy source. *)
Definition next_raw : Sim N :=
  fun w =>
    let g := entropy w in
    (stream g (cursor g), mk_world (base w) (mk_rng (stream g) (S (cursor g)))).

(** An entropy source that replays a finite list, then zeros. *)
Definition replay (l : list N) : rng := mk_rng (fun i => nth i l 0%N) 0.

(** ** Python's [random] module *)

Module random.

Local Open Scope sim_scope.

(** [Random._randbelow(n)]: an integer in [0, n).  CPython draws bits until
    the value is below [n]; here one raw value is reduced modulo [n], which
    reaches every value of the range as well. *)
Definition _randbelow (n : Z) : Sim Z :=
  r <- next_raw ;; ret (Z.of_N r mod n).

(** [random.randint(a, b)] is [a + _randbelow(b - a + 1)]. *)
Definition randint (a b : Z) : Sim Z :=
  j <- _randbelow (b - a + 1) ;; ret (a + j).

(** [random.random()]: a multiple of 2^-53 in [0, 1). *)
Definition random : Sim Q :=
  r <- next_raw ;; ret (Qmake (Z.of_N r mod 2 ^ 53) (2 ^ 53)).

(** [random.uniform(a, b)] is [a + (b - a) * random()]. *)
Definition uniform (a b : Q) : Sim Q :=
  u <- random ;; ret (a + (b - a) * u)%Q.

(** [random.choice(seq)] is [seq[_randbelow(len(seq))]]. *)
Definition choice {A} (d : A) (seq : list A) : Sim A :=
  j <- _randbelow (Z.of_nat (List.length seq)) ;; ret (nth (Z.to_nat j) seq d).

(** [pool[j] = v] *)
Fixpoint list_set {A} (l : list A) (j : nat) (v : A) : list A :=
  match l, j with
  | [], _ => []
  | _ :: t, O => v :: t
  | x :: t, S j' => x :: list_set t j' v
  end.

(** The selection loop of [random.sample] for a population of at most 21
    elements (the branch CPython takes for the 14-entry fault pool):
    [j = randbelow(n - i); result[i] = pool[j]; pool[j] = pool[n - i - 1]]. *)
Fixpoint sample_loop {A} (d : A) (n : nat) (pool : list A) (i todo : nat)
  : Sim (list A) :=
  match todo with
  | O => ret []
  | S todo' =>
      j <- _randbelow (Z.of_nat (n - i)) ;;
      let x := nth (Z.to_nat j) pool d in
      let pool' := list_set pool (Z.to_nat j) (nth (n - i - 1) pool d) in
      rest <- sample_loop d n pool' (S i) todo' ;;
      ret (x :: rest)
  end.

Definition sample {A} (d : A) (population : list A) (k : Z) : Sim (list A) :=
  sample_loop d (List.length population) population 0 (Z.to_nat k).

End random.

(** ** Python built-ins on numbers and strings *)

(** Round to the nearest integer, ties to even. *)
Definition round_half_even (x : Q) : Z :=
  let f := Qfloor x in
  let r := (x - inject_Z f)%Q in
  match (r ?= 1 # 2)%Q with
  | Lt => f
  | Gt => f + 1
  | Eq => if Z.even f then f else f + 1
  end.

(** [round(x, ndigits)] on a float. *)
Definition py_round (x : Q) (ndigits : nat) : Q :=
  let s := inject_Z (10 ^ Z.of_nat ndigits) in
  (inject_Z (round_half_even (x * s)) / s)%Q.

(** [int(x)] on a float: truncation toward zero. *)
Definition py_int (x : Q) : Z := Z.quot (Qnum x) (Zpos (Qden x)).

(** [x < y] on floats. *)
Definition Qltb (x y : Q) : bool := negb (Qle_bool y x).

(** [max(a, b)] on floats: the first argument unless the second is larger. *)
Definition Qmax' (a b : Q) : Q := if Qltb a b then b else a.

(** [str(n)] for an int that is not negative. *)
Definition py_str (n : Z) : string :=
  NilEmpty.string_of_uint (N.to_uint (Z.to_N n)).

Fixpoint zfill (width : nat) (s : string) : string :=
  match width - String.length s with
  | O => s
  | S _ => match width with O => s | S w => String "0" (zfill w s) end
  end%nat.

(** [f"{x:.5f}"]: sign only when negative, no padding of the integer part,
    exactly five fractional digits. *)
Definition format_5f (x : Q) : string :=
  let n := Z.abs (round_half_even (x * 100000)) in
  ((if Qltb x 0 then "-" else EmptyString)
     ++ py_str (n / 100000) ++ "." ++ zfill 5 (py_str (n mod 100000)))%string.

(** [c.isspace()] for the characters [str.strip()] removes (ASCII range). *)
Definition is_space (c : ascii) : bool :=
  let n := nat_of_ascii c in
  ((9 <=? n) && (n <=? 13) || (28 <=? n) && (n <=? 32))%nat.

Definition is_digit (c : ascii) : bool :=
  let n := nat_of_ascii c in ((48 <=? n) && (n <=? 57))%nat.

Fixpoint all_digits (s : string) : bool :=
  match s with
  | EmptyString => true
  | String c s' => is_digit c && all_digits s'
  end.

(** [s.isdigit()]: non-empty and made of decimal digits only. *)
Definition isdigit (s : string) : bool :=
  match s with EmptyString => false | _ => all_digits s end.

Fixpoint lstrip (s : string) : string :=
  match s with
  | EmptyString => EmptyString
  | String c s' => if is_space c then lstrip s' else s
  end.

Fixpoint rstrip (s : string) : string :=
  match s with
  | EmptyString => EmptyString
  | String c s' =>
      match rstrip s' with
      | EmptyString => if is_space c then EmptyString else String c EmptyString
      | r => String c r
      end
  end.

(** [s.strip()] *)
Definition strip (s : string) : string := rstrip (lstrip s).

(** [s.split(sep)] for a one-character separator. *)
Fixpoint split (sep : ascii) (s : string) : list string :=
  match s with
  | EmptyString => [EmptyString]
  | String c s' =>
      if Ascii.eqb c sep then EmptyString :: split sep s'
      else match split sep s' with
           | [] => [String c EmptyString]
           | h :: t => String c h :: t
           end
  end.

(** [not l] on a list. *)
Definition is_empty {A} (l : list A) : bool :=
  match l with [] => true | _ => false end.

(** Truthiness of a string: non-empty. *)
Definition truthy (s : string) : bool :=
  match s with EmptyString => false | _ => true end.

(** ** The telemetry record (app/models/telemetry_data.py) *)

Module TelemetryData.

Record t : Type := mk {
  ignition_status : Z;
  movement_status : Z;
  speed : Z;
  gps_location : string;
  gsm_signal : Z;
  rpm : Z;
  engine_temp : Z;
  engine_load : Z;
  oil_level : Z;
  fuel_level : Z;
  fuel_used_gps : Q;
  instant_consumption : Q;
  obd_faults : list string;
  odometer_total : Z;
  odometer_trip : Z;
  event_type : option Z;
  event_g_value : option Z
}.

(** [Field(..., ge=lo, le=hi)] on an int. *)
Definition in_range (lo hi v : Z) : bool := (lo <=? v) && (v <=? hi).

(** [Field(..., ge=lo, le=hi)] on a float. *)
Definition in_rangeQ (lo hi v : Q) : bool := Qle_bool lo v && Qle_bool v hi.

(** [Optional[int] = Field(None, ge=lo, le=hi)]: [None] passes. *)
Definition in_range_opt (lo hi : Z) (v : option Z) : bool :=
  match v with None => true | Some x => in_range lo hi x end.

Definition check (name : string) (ok : bool) : list string :=
  if ok then [] else [name].

(** The fields whose constraint fails, in declaration order. *)
Definition errors (r : t) : list string :=
  check "ignition_status" (in_range 0 1 (ignition_status r))
  ++ check "movement_status" (in_range 0 1 (movement_status r))
  ++ check "speed" (in_range 0 350 (speed r))
  ++ check "gsm_signal" (in_range 1 5 (gsm_signal r))
  ++ check "rpm" (in_range 0 16384 (rpm r))
  ++ check "engine_temp" (in_range (-60) 127 (engine_temp r))
  ++ check "engine_load" (in_range 0 100 (engine_load r))
  ++ check "oil_level" (in_range 0 100 (oil_level r))
  ++ check "fuel_level" (in_range 0 100 (fuel_level r))
  ++ check "fuel_used_gps" (in_rangeQ 0 4294967 (fuel_used_gps r))
  ++ check "instant_consumption" (in_rangeQ 0 32767 (instant_consumption r))
  ++ check "odometer_total" (in_range 0 2147483647 (odometer_total r))
  ++ check "odometer_trip" (in_range 0 2147483647 (odometer_trip r))
  ++ check "event_type" (in_range_opt 1 3 (event_type r))
  ++ check "event_g_value" (in_range_opt 0 255 (event_g_value r)).

(** The constructor [TelemetryData(...)]: validates, raises on failure. *)
Definition new (r : t) : result t :=
  match errors r with
  | [] => Ok r
  | fields => Raise (ValidationError fields)
  end.

End TelemetryData.

(** ** The simulator (app/simulator/generator.py, app/config.py) *)

Local Open Scope sim_scope.

Fixpoint random_digits (n : nat) : Sim string :=
  match n with
  | O => ret EmptyString
  | S n' =>
      d <- random.randint 0 9 ;;
      rest <- random_digits n' ;;
      ret (py_str d ++ rest)%string
  end.

(** [generate_random_imei()]: fifteen independent decimal digits. *)
Definition generate_random_imei : Sim string := random_digits 15.

Module Settings.

Record t : Type := mk {
  DEVICE_IMEI : option string;
  DEVICE_IMEI_LIST : option string;
  ALLOW_GENERATE_IMEI : bool
}.

(** The field validator of [DEVICE_IMEI]. *)
Definition validate_single_imei (v : option string) : result (option string) :=
  match v with
  | None => Ok None
  | Some v =>
      let v := strip v in
      if negb (isdigit v) || negb (String.length v =? 15)%nat
      then Raise (ValueError v)
      else Ok (Some v)
  end.

(** [Settings()]: the fields as read from the environment, the single
    identifier passed through its validator. *)
Definition new (device_imei device_imei_list : option string)
           (allow_generate_imei : bool) : result t :=
  match validate_single_imei device_imei with
  | Raise e => Raise e
  | Ok v => Ok (mk v device_imei_list allow_generate_imei)
  end.

Fixpoint valid_entries (raw_list : list string) : list string :=
  match raw_list with
  | [] => []
  | imei :: rest =>
      let imei := strip imei in
      if truthy imei && isdigit imei && (String.length imei =? 15)%nat
      then imei :: valid_entries rest
      else valid_entries rest
  end.

(** The property [imei_list]. *)
Definition imei_list (self : t) : list string :=
  let imeis :=
    match DEVICE_IMEI self with
    | Some v => if truthy v then [v] else []
    | None => []
    end in
  match DEVICE_IMEI_LIST self with
  | Some l => if truthy l then imeis ++ valid_entries (split "," l) else imeis
  | None => imeis
  end.

Definition validate_imei_config (self : t) : Sim (result string) :=
  match imei_list self with
  | selected_imei :: _ => ret (Ok selected_imei)
  | [] =>
      if ALLOW_GENERATE_IMEI self
      then generated_imei <- generate_random_imei ;; ret (Ok generated_imei)
      else ret (Raise (RuntimeError "DEVICE_IMEI no configurado"))
  end.

End Settings.

Module TelemetryGenerator.

(** The class-level dictionary as the class body writes it.  The keys
    [ignition], [in_motion] and [speed] are not in the literal; [__init__]
    assigns them before anything reads them, and they hold 0 here. *)
Definition _base_state : State.t :=
  State.mk 4.60971 (-74.08175) 2456789 34567 68 80 0 0 0 None.

Definition _obd_faults_pool : list string :=
  [ "P0135"; "P0420"; "P0300"; "P0171"; "P0174";
    "P0301"; "P0302"; "P0303"; "P0304"; "P0420";
    "U0100"; "U0101"; "B0001"; "B0002" ]%string.

(** The instance attributes. *)
Record t : Type := mk {
  _imei_index : nat;
  _imeis : list string;
  _selected_imei : string
}.

Definition __init__ (settings : Settings.t) : Sim (result t) :=
  ign <- random.choice 0 [0; 1] ;;
  modify (State.set_ignition ign) ;;;
  mot <- random.choice 0 [0; 1] ;;
  modify (State.set_in_motion mot) ;;;
  ign <- read State.ignition ;;
  spd <- (if ign =? 0 then ret 0 else random.randint 0 80) ;;
  modify (State.set_speed spd) ;;;
  let _imeis := Settings.imei_list settings in
  let checked :=
    if is_empty _imeis && Settings.ALLOW_GENERATE_IMEI settings then Ok []
    else if is_empty _imeis then
      Raise (RuntimeError
        "No IMEI configurado. Verifique DEVICE_IMEI o ALLOW_GENERATE_IMEI")
    else Ok _imeis in
  match checked with
  | Raise e => ret (Raise e)
  | Ok _imeis =>
      sel <- Settings.validate_imei_config settings ;;
      match sel with
      | Raise e => ret (Raise e)
      | Ok _selected_imei => ret (Ok (mk 0 _imeis _selected_imei))
      end
  end.

Definition _generate_gps_coordinate : Sim string :=
  lat_change <- random.uniform (-0.001) 0.001 ;;
  lon_change <- random.uniform (-0.001) 0.001 ;;
  modify (fun b => State.set_lat (State.lat b + lat_change)%Q b) ;;;
  modify (fun b => State.set_lon (State.lon b + lon_change)%Q b) ;;;
  lat <- read State.lat ;;
  lon <- read State.lon ;;
  ret ("+" ++ format_5f lat ++ format_5f lon ++ "/")%string.

Definition _generate_rpm (ignition speed : Z) : Sim Z :=
  if ignition =? 0 then ret 0
  else if speed =? 0 then random.randint 700 900
  else if speed <? 40 then random.randint 1200 2500
  else if speed <? 80 then random.randint 2000 3500
  else random.randint 3500 6000.

Definition _generate_engine_temp (ignition engine_load : Z) : Sim Z :=
  if ignition =? 0 then random.randint (-60) 40
  else
    let base_temp := if engine_load <? 30 then 75 else 95 in
    random.randint (base_temp - 5) (base_temp + 5).

Definition _generate_fuel_consumption (speed engine_load movement : Z)
  : Sim Q :=
  if movement =? 0 then
    u <- random.uniform 0.2 0.8 ;; ret (py_round u 1)
  else
    let base_consumption :=
      (8.0 + inject_Z speed / 20 + inject_Z engine_load / 10)%Q in
    u <- random.uniform (-2) 3 ;;
    ret (py_round (base_consumption + u) 1).

Definition _generate_obd_faults : Sim (list string) :=
  u <- random.random ;;
  if Qltb u 0.15 then
    num_faults <- random.randint 1 3 ;;
    random.sample EmptyString _obd_faults_pool num_faults
  else ret [].

Definition _generate_event_data (speed : Z) (prev_speed : option Z)
  : Sim (option Z * Z) :=
  let prev_speed := match prev_speed with None => speed | Some p => p end in
  let speed_diff := speed - prev_speed in
  if speed_diff >? 5 then
    ret (Some 1, Z.min 255 (15 + speed_diff * 2))
  else if speed_diff <? -5 then
    ret (Some 2, Z.min 255 (20 + Z.abs speed_diff * 2))
  else
    u <- random.random ;;
    g <- random.randint 10 40 ;;
    ret (if Qltb u 0.3 then Some 3 else None, g).

(** The body of [generate_telemetry_data] up to its [return]: the state
    update and the keyword arguments handed to the record constructor. *)
Definition telemetry_kwargs : Sim TelemetryData.t :=
  u <- random.random ;;
  (if Qltb u 0.05
   then modify (fun b => State.set_ignition (1 - State.ignition b) b)
   else ret tt) ;;;
  ignition <- read State.ignition ;;
  movement <-
    (if ignition =? 1 then
       u <- random.random ;;
       (if Qltb u 0.3
        then modify (fun b => State.set_in_motion (1 - State.in_motion b) b)
        else ret tt) ;;;
       read State.in_motion
     else ret 0) ;;
  prev_speed <- read State.speed ;;
  (if ignition =? 0 then modify (State.set_speed 0)
   else if movement =? 0 then
     dec <- random.randint 0 5 ;;
     modify (fun b => State.set_speed (Z.max 0 (State.speed b - dec)) b)
   else
     speed_change <- random.randint (-3) 8 ;;
     modify (fun b =>
       State.set_speed (Z.max 0 (Z.min 350 (State.speed b + speed_change))) b)) ;;;
  speed <- read State.speed ;;
  rpm <- _generate_rpm ignition speed ;;
  engine_load <- random.randint 30 70 ;;
  engine_temp <- _generate_engine_temp ignition engine_load ;;
  instant_consumption <- _generate_fuel_consumption speed engine_load movement ;;
  (if movement =? 1 then
     trip_inc <- random.randint 200 500 ;;
     total_inc <- random.randint 200 500 ;;
     modify (fun b => State.set_trip_odo (State.trip_odo b + trip_inc) b) ;;;
     modify (fun b => State.set_total_odo (State.total_odo b + total_inc) b)
   else ret tt) ;;;
  (if (movement =? 1) && (ignition =? 1) then
     fuel_decrease <- random.uniform 0.01 0.05 ;;
     modify (fun b =>
       State.set_fuel_level (Qmax' 0 (State.fuel_level b - fuel_decrease)) b)
   else ret tt) ;;;
  gps_location <- _generate_gps_coordinate ;;
  obd_faults <- _generate_obd_faults ;;
  ev <- _generate_event_data speed (Some prev_speed) ;;
  let (event_type, event_g_value) := ev in
  u <- random.random ;;
  gsm_signal <- (if Qltb u 0.9 then random.randint 1 5 else random.randint 3 5) ;;
  base_oil <- read State.oil_level ;;
  d_oil <- random.randint (-2) 1 ;;
  let oil_level := Z.max 70 (Z.min 100 (base_oil + d_oil)) in
  fuel_used_gps <-
    (if movement =? 1 then
       prev <- read (State.get_fuel_used_total 150.0) ;;
       let fuel_used_gps := (prev + instant_consumption / 7200)%Q in
       modify (State.set_fuel_used_total fuel_used_gps) ;;;
       ret fuel_used_gps
     else read (State.get_fuel_used_total 150.0)) ;;
  fuel_level <- read State.fuel_level ;;
  total_odo <- read State.total_odo ;;
  trip_odo <- read State.trip_odo ;;
  ret (TelemetryData.mk ignition movement speed gps_location gsm_signal
         rpm engine_temp engine_load oil_level (py_int fuel_level)
         (py_round fuel_used_gps 2) instant_consumption obd_faults
         total_odo trip_odo event_type (Some event_g_value)).

(** [return TelemetryData(...)]: the constructor validates the fields. *)
Definition generate_telemetry_data : Sim (result TelemetryData.t) :=
  kwargs <- telemetry_kwargs ;; ret (TelemetryData.new kwargs).

(** [_get_current_imei]: the instance is returned with its cursor. *)
Definition _get_current_imei (settings : Settings.t) (self : t)
  : Sim (string * t) :=
  if (1 <? List.length (_imeis self))%nat then
    let idx := ((_imei_index self + 1) mod List.length (_imeis self))%nat in
    let self := mk idx (_imeis self) (_selected_imei self) in
    ret (nth (_imei_index self) (_imeis self) EmptyString, self)
  else if (List.length (_imeis self) =? 1)%nat then
    ret (nth 0 (_imeis self) EmptyString, self)
  else if Settings.ALLOW_GENERATE_IMEI settings then
    imei <- generate_random_imei ;; ret (imei, self)
  else ret (_selected_imei self, self).



End TelemetryGenerator.

Import TelemetryGenerator.

(** ** The timestamp of a packet (app/simulator/generator.py) *)

(** What [datetime.now(timezone.utc)] returns: the fields of an aware
    datetime whose offset is zero. *)
Record datetime : Type := mk_datetime {
  year : Z;
  month : Z;
  day : Z;
  hour : Z;
  minute : Z;
  second : Z;
  microsecond : Z
}.

(** The ranges the datetime type guarantees for its fields. *)
Record datetime_ok (d : datetime) : Prop := {
  ok_year : 1 <= year d <= 9999;
  ok_month : 1 <= month d <= 12;
  ok_day : 1 <= day d <= 31;
  ok_hour : 0 <= hour d <= 23;
  ok_minute : 0 <= minute d <= 59;
  ok_second : 0 <= second d <= 59;
  ok_microsecond : 0 <= microsecond d <= 999999
}.

(** The conversion [%0wd] of an int that is not negative. *)
Definition pad (width : nat) (n : Z) : string := zfill width (py_str n).

(** [d.isoformat(timespec="microseconds")] for an aware datetime in UTC. *)
Definition isoformat (d : datetime) : string :=
  (pad 4 (year d) ++ "-" ++ pad 2 (month d) ++ "-" ++ pad 2 (day d)
     ++ "T" ++ pad 2 (hour d) ++ ":" ++ pad 2 (minute d)
     ++ ":" ++ pad 2 (second d) ++ "." ++ pad 6 (microsecond d)
     ++ "+00:00")%string.

(** [s.replace(old, new)] for a non-empty [old]: occurrences are found from
    the left and do not overlap; [skip] counts the characters of a found
    occurrence that are still to be dropped. *)
Fixpoint replace_from (skip : nat) (old new s : string) : string :=
  match s with
  | EmptyString => EmptyString
  | String c s' =>
      match skip with
      | S k => replace_from k old new s'
      | O =>
          if String.prefix old s
          then (new ++ replace_from (String.length old - 1) old new s')%string
          else String c (replace_from 0 old new s')
      end
  end.

Definition replace (old new s : string) : string := replace_from 0 old new s.

Definition _get_current_timestamp (now : datetime) : string :=
  replace "+00:00" "Z" (isoformat now).

(** ** The connection manager (app/api/websocket.py) *)

(** [x in l] on a list of connections; a connection is equal to itself
    only, so it is modelled by a number that identifies the object. *)
Fixpoint py_in (x : nat) (l : list nat) : bool :=
  match l with
  | [] => false
  | y :: l' => Nat.eqb y x || py_in x l'
  end.

(** [l.remove(x)]: the first occurrence goes. *)
Fixpoint py_remove (x : nat) (l : list nat) : list nat :=
  match l with
  | [] => []
  | y :: l' => if Nat.eqb y x then l' else y :: py_remove x l'
  end.

Module ConnectionManager.

(** The attributes the synchronous methods use ([broadcast_task] is never
    assigned after construction). *)
Record t : Type := mk {
  active_connections : list nat;
  generator : TelemetryGenerator.t;
  is_running : bool
}.

(** [ConnectionManager()], which the module runs when it is imported. *)
Definition __init__ (settings : Settings.t) : Sim (result t) :=
  g <- TelemetryGenerator.__init__ settings ;;
  match g with
  | Raise e => ret (Raise e)
  | Ok generator => ret (Ok (mk [] generator false))
  end.

Definition _stop_broadcasting (self : t) : t :=
  mk (active_connections self) (generator self) false.

Definition disconnect (websocket : nat) (self : t) : t :=
  let self :=
    if py_in websocket (active_connections self)
    then mk (py_remove websocket (active_connections self))
            (generator self) (is_running self)
    else self in
  if (List.length (active_connections self) =? 0)%nat && is_running self
  then _stop_broadcasting self
  else self.

End ConnectionManager.

(** * Specification vocabulary *)

(** [wp c P w]: running [c] in world [w] ends in a result and a world that
    satisfy [P]. *)
Definition wp {A} (c : Sim A) (P : A -> world -> Prop) (w : world) : Prop :=
  P (fst (c w)) (snd (c w)).

(** The speed update of one tick, from the ignition and movement flags of
    the tick. *)
Definition speed_step (ignition movement speed speed' : Z) : Prop :=
  if ignition =? 0 then speed' = 0
  else if movement =? 0 then
    exists d, 0 <= d <= 5 /\ speed' = Z.max 0 (speed - d)
  else
    exists d, -3 <= d <= 8 /\ speed' = Z.max 0 (Z.min 350 (speed + d)).

(** What [_generate_event_data] returns for a speed change. *)
Definition event_spec (speed prev_speed : Z) (ev : option Z * Z) : Prop :=
  let speed_diff := speed - prev_speed in
  (5 < speed_diff /\ fst ev = Some 1
   /\ snd ev = Z.min 255 (15 + 2 * speed_diff))
  \/ (speed_diff < -5 /\ fst ev = Some 2
      /\ snd ev = Z.min 255 (20 + 2 * Z.abs speed_diff))
  \/ (-5 <= speed_diff <= 5 /\ (fst ev = Some 3 \/ fst ev = None)
      /\ 10 <= snd ev <= 40).

(** One tick, from the world [w] it starts in to the keyword arguments [a]
    and the world [w'] it leaves. *)
Record tick_post (w : world) (a : TelemetryData.t) (w' : world) : Prop := {
  tp_ignition : TelemetryData.ignition_status a = State.ignition (base w');
  tp_ignition_step :
    State.ignition (base w') = State.ignition (base w)
    \/ State.ignition (base w') = 1 - State.ignition (base w);
  tp_in_motion_step :
    State.in_motion (base w') = State.in_motion (base w)
    \/ State.in_motion (base w') = 1 - State.in_motion (base w);
  tp_movement :
    TelemetryData.movement_status a
    = if State.ignition (base w') =? 1 then State.in_motion (base w') else 0;
  tp_speed : TelemetryData.speed a = State.speed (base w');
  tp_speed_step :
    speed_step (State.ignition (base w')) (TelemetryData.movement_status a)
               (State.speed (base w)) (State.speed (base w'));
  tp_gsm_signal : 1 <= TelemetryData.gsm_signal a <= 5;
  tp_rpm : 0 <= TelemetryData.rpm a <= 6000;
  tp_engine_temp : -60 <= TelemetryData.engine_temp a <= 100;
  tp_engine_load : 30 <= TelemetryData.engine_load a <= 70;
  tp_consumption_idle :
    TelemetryData.movement_status a = 0 ->
    (0.2 <= TelemetryData.instant_consumption a
     /\ TelemetryData.instant_consumption a <= 0.8)%Q;
  tp_consumption_moving :
    TelemetryData.movement_status a <> 0 ->
    (9.0 <= TelemetryData.instant_consumption a
     /\ TelemetryData.instant_consumption a <= 35.5)%Q;
  tp_odometer_total :
    TelemetryData.odometer_total a = State.total_odo (base w');
  tp_odometer_trip :
    TelemetryData.odometer_trip a = State.trip_odo (base w');
  tp_total_odo_step :
    if TelemetryData.movement_status a =? 1
    then exists inc, 200 <= inc <= 500
           /\ State.total_odo (base w') = State.total_odo (base w) + inc
    else State.total_odo (base w') = State.total_odo (base w);
  tp_trip_odo_step :
    if TelemetryData.movement_status a =? 1
    then exists inc, 200 <= inc <= 500
           /\ State.trip_odo (base w') = State.trip_odo (base w) + inc
    else State.trip_odo (base w') = State.trip_odo (base w);
  tp_fuel_level :
    TelemetryData.fuel_level a = py_int (State.fuel_level (base w'));
  tp_fuel_level_step :
    State.fuel_level (base w') = State.fuel_level (base w)
    \/ exists dec, (0.01 <= dec /\ dec <= 0.05)%Q
         /\ State.fuel_level (base w')
            = Qmax' 0 (State.fuel_level (base w) - dec);
  tp_fuel_used :
    TelemetryData.fuel_used_gps a
    = py_round (State.get_fuel_used_total 150.0 (base w')) 2;
  tp_fuel_used_step :
    State.fuel_used_total (base w')
    = if TelemetryData.movement_status a =? 1
      then Some (State.get_fuel_used_total 150.0 (base w)
                 + TelemetryData.instant_consumption a / 7200)%Q
      else State.fuel_used_total (base w);
  tp_oil_state : State.oil_level (base w') = State.oil_level (base w);
  tp_oil :
    exists d, -2 <= d <= 1
      /\ TelemetryData.oil_level a
         = Z.max 70 (Z.min 100 (State.oil_level (base w) + d));
  tp_event :
    exists g, TelemetryData.event_g_value a = Some g
      /\ event_spec (State.speed (base w')) (State.speed (base w))
                    (TelemetryData.event_type a, g);
  tp_obd_length : (List.length (TelemetryData.obd_faults a) <= 3)%nat;
  tp_obd_incl : incl (TelemetryData.obd_faults a) _obd_faults_pool;
  tp_lat_step :
    exists dlat, (-0.001 <= dlat /\ dlat <= 0.001)%Q
      /\ State.lat (base w') = (State.lat (base w) + dlat)%Q;
  tp_lon_step :
    exists dlon, (-0.001 <= dlon /\ dlon <= 0.001)%Q
      /\ State.lon (base w') = (State.lon (base w) + dlon)%Q;
  tp_gps :
    TelemetryData.gps_location a
    = ("+" ++ format_5f (State.lat (base w'))
           ++ format_5f (State.lon (base w')) ++ "/")%string
}.

(** What [__init__] does to the dictionary. *)
Definition init_post (w w' : world) : Prop :=
  exists i m s,
    (i = 0 \/ i = 1) /\ (m = 0 \/ m = 1) /\ 0 <= s <= 80 /\ (i = 0 -> s = 0)
    /\ base w' = State.set_speed s (State.set_in_motion m
                   (State.set_ignition i (base w))).

(** What [__init__] returns, by configuration. *)
Definition init_returns (settings : Settings.t) (r : result t) : Prop :=
  match Settings.imei_list settings with
  | x :: l => r = Ok (mk 0 (x :: l) x)
  | [] =>
      if Settings.ALLOW_GENERATE_IMEI settings
      then exists sel, r = Ok (mk 0 [] sel)
      else r = Raise (RuntimeError
             "No IMEI configurado. Verifique DEVICE_IMEI o ALLOW_GENERATE_IMEI")
  end.

(** The invariant of the class-level dictionary once a generator exists. *)
Record state_inv (b : State.t) : Prop := {
  inv_ignition : State.ignition b = 0 \/ State.ignition b = 1;
  inv_in_motion : State.in_motion b = 0 \/ State.in_motion b = 1;
  inv_speed : 0 <= State.speed b <= 350;
  inv_speed_off : State.ignition b = 0 -> State.speed b = 0;
  inv_oil : State.oil_level b = 80;
  inv_fuel_level : (0 <= State.fuel_level b /\ State.fuel_level b <= 68)%Q;
  inv_total_odo : 2456789 <= State.total_odo b;
  inv_trip_odo : 34567 <= State.trip_odo b;
  inv_fuel_used : (150 <= State.get_fuel_used_total 150.0 b)%Q
}.

(** The states the dictionary can be in: after a generator was constructed
    on the class literal, after another one was constructed on the shared
    dictionary, and after a tick. *)
Inductive reachable : State.t -> Prop :=
| reach_init settings w :
    base w = _base_state ->
    reachable (base (snd (__init__ settings w)))
| reach_reinit settings w :
    reachable (base w) ->
    reachable (base (snd (__init__ settings w)))
| reach_tick w :
    reachable (base w) ->
    reachable (base (snd (generate_telemetry_data w))).

(** The dictionary a later tick starts from: any number of ticks (whatever
    they return) and any other use of the entropy source lie in between. *)
Inductive later : State.t -> State.t -> Prop :=
| later_now b : later b b
| later_tick w b' :
    later (base (snd (generate_telemetry_data w))) b' -> later (base w) b'.

(** [n] successive calls of [_get_current_imei] on one instance. *)
Fixpoint current_imeis (n : nat) (settings : Settings.t) (self : t)
  : Sim (list string * t) :=
  match n with
  | O => ret ([], self)
  | S n' =>
      r <- _get_current_imei settings self ;;
      rest <- current_imeis n' settings (snd r) ;;
      ret (fst r :: fst rest, snd rest)
  end.

(** The format of the GPS string as the specification words it: sign, two
    digits, point, five digits, sign, three digits, point, five digits,
    slash. *)
Inductive pat : Type := Sign | Digit | Lit (c : ascii).

Definition pat_ok (p : pat) (c : ascii) : bool :=
  match p with
  | Sign => Ascii.eqb c "+" || Ascii.eqb c "-"
  | Digit => is_digit c
  | Lit l => Ascii.eqb c l
  end.

Fixpoint matches (ps : list pat) (s : string) : bool :=
  match ps, s with
  | [], EmptyString => true
  | p :: ps', String c s' => pat_ok p c && matches ps' s'
  | _, _ => false
  end.

Definition spec_gps_format (s : string) : bool :=
  matches
    ([Sign; Digit; Digit; Lit "."] ++ repeat Digit 5
       ++ [Sign; Digit; Digit; Digit; Lit "."] ++ repeat Digit 5 ++ [Lit "/"])
    s.


(** ** Vocabulary of the further properties *)

(** An identifier as the configuration accepts it: exactly fifteen decimal
    digits (strings are ASCII text, as in [isdigit]). *)
Definition valid_imei (s : string) : bool :=
  isdigit s && (String.length s =? 15)%nat.

Fixpoint comma_free (s : string) : bool :=
  match s with
  | EmptyString => true
  | String c s' => negb (Ascii.eqb c ",") && comma_free s'
  end.

(** The engine-speed band [_generate_rpm] draws from. *)
Definition rpm_band (ignition speed rpm : Z) : Prop :=
  if ignition =? 0 then rpm = 0
  else if speed =? 0 then 700 <= rpm <= 900
  else if speed <? 40 then 1200 <= rpm <= 2500
  else if speed <? 80 then 2000 <= rpm <= 3500
  else 3500 <= rpm <= 6000.

(** The temperature range [_generate_engine_temp] draws from. *)
Definition engine_temp_band (ignition engine_load temp : Z) : Prop :=
  if ignition =? 0 then -60 <= temp <= 40
  else if engine_load <? 30 then 70 <= temp <= 80
  else 90 <= temp <= 100.

(** A sample takes each entry of the population at most as often as the
    population holds it. *)
Definition sub_multiset (l population : list string) : Prop :=
  forall x, (count_occ string_dec l x <= count_occ string_dec population x)%nat.

(** More of one tick: how the engine fields follow the ignition and the
    speed, and when the motion flag and the fuel level are left alone. *)
Record tick_coupling (w : world) (a : TelemetryData.t) (w' : world) : Prop := {
  tc_rpm :
    rpm_band (TelemetryData.ignition_status a) (TelemetryData.speed a)
             (TelemetryData.rpm a);
  tc_engine_temp :
    engine_temp_band (TelemetryData.ignition_status a)
                     (TelemetryData.engine_load a)
                     (TelemetryData.engine_temp a);
  tc_in_motion_off :
    State.ignition (base w') <> 1 ->
    State.in_motion (base w') = State.in_motion (base w);
  tc_fuel_level_kept :
    TelemetryData.movement_status a <> 1
    \/ TelemetryData.ignition_status a <> 1 ->
    State.fuel_level (base w') = State.fuel_level (base w);
  tc_fuel_level_burn :
    TelemetryData.movement_status a = 1 ->
    TelemetryData.ignition_status a = 1 ->
    exists dec, (0.01 <= dec /\ dec <= 0.05)%Q
      /\ State.fuel_level (base w')
         = Qmax' 0 (State.fuel_level (base w) - dec);
  tc_faults : sub_multiset (TelemetryData.obd_faults a) _obd_faults_pool
}.

(** The value [random.random()] makes of a raw value. *)
Definition unit_of_raw (r : N) : Q := Qmake (Z.of_N r mod 2 ^ 53) (2 ^ 53).

(** The flags after a tick, from the two raw values the tick draws first:
    the ignition flips when the first draw is below 0.05, and with the
    ignition on the motion flag flips when the second is below 0.3. *)
Definition flags_after (w w' : world) : Prop :=
  let g := entropy w in
  let ign' :=
    if Qltb (unit_of_raw (stream g (cursor g))) 0.05
    then 1 - State.ignition (base w) else State.ignition (base w) in
  State.ignition (base w') = ign'
  /\ State.in_motion (base w')
     = if ign' =? 1
       then if Qltb (unit_of_raw (stream g (S (cursor g)))) 0.3
            then 1 - State.in_motion (base w) else State.in_motion (base w)
       else State.in_motion (base w).

(** The shape [YYYY-MM-DDTHH:MM:SS.ffffffZ]. *)
Definition timestamp_format (s : string) : bool :=
  matches
    (repeat Digit 4 ++ [Lit "-"; Digit; Digit; Lit "-"; Digit; Digit; Lit "T";
       Digit; Digit; Lit ":"; Digit; Digit; Lit ":"; Digit; Digit; Lit "."]
       ++ repeat Digit 6 ++ [Lit "Z"])
    s.

(** The decimal digits of [n], least significant first, [k] of them. *)
Definition digit (r : N) (d : Decimal.uint) : Decimal.uint :=
  match r with
  | 0 => Decimal.D0 d | 1 => Decimal.D1 d | 2 => Decimal.D2 d
  | 3 => Decimal.D3 d | 4 => Decimal.D4 d | 5 => Decimal.D5 d
  | 6 => Decimal.D6 d | 7 => Decimal.D7 d | 8 => Decimal.D8 d
  | _ => Decimal.D9 d
  end%N.

Fixpoint little_digits (k : nat) (n : N) : Decimal.uint :=
  match k with
  | O => Decimal.Nil
  | S k' => digit (n mod 10) (little_digits k' (n / 10))
  end.

(** Patterns that no plus sign satisfies. *)
Definition no_plus (p : pat) : bool := negb (pat_ok p "+").


(** ** Concrete runs *)

(** One configured identifier, three configured identifiers, none. *)
Definition demo_settings : Settings.t :=
  Settings.mk (Some "352099001761481"%string) None false.

Definition three_settings : Settings.t :=
  Settings.mk None
    (Some "111111111111111,222222222222222,333333333333333"%string) false.


(** Raw values for a construction (ignition on, moving, speed 50) and a
    tick: no toggles, speed + 8, rpm 2500, load 57, temperature 92,
    consumption 17.1, odometers + 300 and + 350, fuel - 0.01, no drift, no
    faults, signal 4, oil - 2.  [4503599627370496] is 2^52: [random()]
    gives 0.5. *)
Definition demo_entropy : list N :=
  [ 1; 1; 50;
    4503599627370496; 4503599627370496; 11; 500; 27; 2; 4503599627370496;
    100; 150; 0; 4503599627370496; 4503599627370496; 4503599627370496;
    0; 3; 0 ]%N.

Definition demo_world : world :=
  snd (__init__ demo_settings (mk_world _base_state (replay demo_entropy))).

(** Raw values for a construction (ignition off, at rest) and a tick whose
    fault sample has two entries, taken at pool positions 1 and then 9. *)
Definition fault_entropy : list N :=
  [ 0; 0;
    4503599627370496; 0; 80; 0; 4503599627370496; 4503599627370496;
    0; 1; 1; 9; 4503599627370496; 5; 0; 2; 2 ]%N.

Definition fault_world : world :=
  snd (__init__ demo_settings (mk_world _base_state (replay fault_entropy))).

Definition noon : datetime := mk_datetime 2025 10 27 13 30 0 123456.

(** * Rules for [Sim] computations *)

Section WpRules.

Context {A B : Type}.

Lemma wp_bind (c : Sim A) (k : A -> Sim B) (P : B -> world -> Prop) w :
  wp c (fun a w' => wp (k a) P w') w -> wp (bind c k) P w.
Proof. unfold wp, bind. destruct (c w) as [a w']. simpl. auto. Qed.

Lemma wp_ret (a : A) (P : A -> world -> Prop) w : P a w -> wp (ret a) P w.
Proof. unfold wp, ret. simpl. auto. Qed.

Lemma wp_read (f : State.t -> A) (P : A -> world -> Prop) w :
  P (f (base w)) w -> wp (read f) P w.
Proof. unfold wp, read. simpl. auto. Qed.

Lemma wp_mono (c : Sim A) (P P' : A -> world -> Prop) w :
  wp c P w -> (forall a w', P a w' -> P' a w') -> wp c P' w.
Proof. unfold wp. auto. Qed.

End WpRules.

Lemma wp_modify (f : State.t -> State.t) (P : unit -> world -> Prop) w :
  P tt (mk_world (f (base w)) (entropy w)) -> wp (modify f) P w.
Proof. unfold wp, modify. simpl. auto. Qed.

Lemma wp_next_raw (P : N -> world -> Prop) w :
  (forall r g, P r (mk_world (base w) g)) -> wp next_raw P w.
Proof. unfold wp, next_raw. simpl. auto. Qed.

(** ** The [random] module: every call returns a value of its documented
    range and leaves the dictionary alone *)

Lemma wp_randbelow n (P : Z -> world -> Prop) w :
  0 < n ->
  (forall j g, 0 <= j < n -> P j (mk_world (base w) g)) ->
  wp (random._randbelow n) P w.
Proof.
  intros Hn H. unfold random._randbelow. apply wp_bind, wp_next_raw.
  intros r g. apply wp_ret, H. apply Z.mod_pos_bound. exact Hn.
Qed.

Lemma wp_randint a b (P : Z -> world -> Prop) w :
  a <= b ->
  (forall v g, a <= v <= b -> P v (mk_world (base w) g)) ->
  wp (random.randint a b) P w.
Proof.
  intros Hab H. unfold random.randint. apply wp_bind, wp_randbelow; [lia|].
  intros j g Hj. apply wp_ret.
  change (base (mk_world (base w) g)) with (base w). apply H. lia.
Qed.

Lemma wp_random (P : Q -> world -> Prop) w :
  (forall u g, (0 <= u /\ u < 1)%Q -> P u (mk_world (base w) g)) ->
  wp random.random P w.
Proof.
  intros H. unfold random.random. apply wp_bind, wp_next_raw.
  intros r g. apply wp_ret, H.
  assert (Hm : 0 <= Z.of_N r mod 2 ^ 53 < 2 ^ 53)
    by (apply Z.mod_pos_bound; reflexivity).
  unfold Qle, Qlt. simpl Qnum. simpl Qden.
  change (Z.pos (2 ^ 53)) with (2 ^ 53). lia.
Qed.

Lemma wp_uniform a b (P : Q -> world -> Prop) w :
  (a <= b)%Q ->
  (forall u g, (a <= u /\ u <= b)%Q -> P u (mk_world (base w) g)) ->
  wp (random.uniform a b) P w.
Proof.
  intros Hab H. unfold random.uniform. apply wp_bind, wp_random.
  intros u g [H0 H1]. apply wp_ret.
  change (base (mk_world (base w) g)) with (base w). apply H.
  split; nra.
Qed.

Lemma wp_choice {A} (d : A) (seq : list A) (P : A -> world -> Prop) w :
  seq <> [] ->
  (forall x g, In x seq -> P x (mk_world (base w) g)) ->
  wp (random.choice d seq) P w.
Proof.
  intros Hne H. unfold random.choice.
  assert (0 < Z.of_nat (List.length seq))
    by (destruct seq; [congruence | simpl; lia]).
  apply wp_bind, wp_randbelow; [assumption|]. intros j g Hj.
  apply wp_ret, H. apply nth_In. lia.
Qed.

(** * Rounding *)

Lemma round_half_even_Z (k : Z) : round_half_even (inject_Z k) = k.
Proof.
  unfold round_half_even. rewrite Qfloor_Z.
  assert (E : (inject_Z k - inject_Z k ?= 1 # 2)%Q = Lt).
  { rewrite <- Qlt_alt. lra. }
  rewrite E. reflexivity.
Qed.

Lemma round_half_even_floor (x : Q) :
  Qfloor x <= round_half_even x <= Qfloor x + 1.
Proof.
  unfold round_half_even.
  destruct (x - inject_Z (Qfloor x) ?= 1 # 2)%Q; try destruct (Z.even _); lia.
Qed.

Lemma round_half_even_mono (x y : Q) :
  (x <= y)%Q -> round_half_even x <= round_half_even y.
Proof.
  intros Hxy.
  assert (Hf := Qfloor_resp_le _ _ Hxy).
  destruct (Z.eq_dec (Qfloor x) (Qfloor y)) as [E|NE].
  - unfold round_half_even. rewrite E.
    destruct (y - inject_Z (Qfloor y) ?= 1 # 2)%Q eqn:Cy;
    destruct (x - inject_Z (Qfloor y) ?= 1 # 2)%Q eqn:Cx;
      try destruct (Z.even (Qfloor y)); try lia;
      try rewrite <- Qeq_alt in *; try rewrite <- Qlt_alt in *;
      try rewrite <- Qgt_alt in *; lra.
  - pose proof (round_half_even_floor x). pose proof (round_half_even_floor y).
    lia.
Qed.

Lemma pow10_pos n : (0 < inject_Z (10 ^ Z.of_nat n))%Q.
Proof.
  change 0%Q with (inject_Z 0). rewrite <- Zlt_Qlt.
  apply Z.pow_pos_nonneg; lia.
Qed.

Lemma py_round_mono (x y : Q) n : (x <= y)%Q -> (py_round x n <= py_round y n)%Q.
Proof.
  intros Hxy. unfold py_round.
  pose proof (pow10_pos n) as Hs.
  apply Qmult_le_compat_r.
  - rewrite <- Zle_Qle. apply round_half_even_mono.
    apply Qmult_le_compat_r; [exact Hxy | lra].
  - apply Qlt_le_weak, Qinv_lt_0_compat, Hs.
Qed.

(** A value with at most [n] decimals is a fixed point of [round(., n)]. *)
Lemma py_round_decimal (k : Z) n :
  (py_round (inject_Z k / inject_Z (10 ^ Z.of_nat n)) n
   == inject_Z k / inject_Z (10 ^ Z.of_nat n))%Q.
Proof.
  unfold py_round. pose proof (pow10_pos n) as Hs.
  assert (E : (inject_Z k / inject_Z (10 ^ Z.of_nat n) * inject_Z (10 ^ Z.of_nat n)
               == inject_Z k)%Q) by (field; lra).
  assert (E' : round_half_even (inject_Z k / inject_Z (10 ^ Z.of_nat n)
                                * inject_Z (10 ^ Z.of_nat n)) = k).
  { rewrite <- (round_half_even_Z k) at 2. unfold round_half_even.
    rewrite (Qfloor_comp _ _ E). rewrite E. reflexivity. }
  rewrite E'. reflexivity.
Qed.

Lemma py_round_ge (k : Z) (lo x : Q) n :
  (lo == inject_Z k / inject_Z (10 ^ Z.of_nat n))%Q ->
  (lo <= x)%Q -> (lo <= py_round x n)%Q.
Proof.
  intros E H. rewrite E in *. rewrite <- (py_round_decimal k n).
  apply py_round_mono, H.
Qed.

Lemma py_round_le (k : Z) (hi x : Q) n :
  (hi == inject_Z k / inject_Z (10 ^ Z.of_nat n))%Q ->
  (x <= hi)%Q -> (py_round x n <= hi)%Q.
Proof.
  intros E H. rewrite E in *. rewrite <- (py_round_decimal k n).
  apply py_round_mono, H.
Qed.

(** * The field generators *)

Lemma wp_generate_rpm ignition speed (P : Z -> world -> Prop) w :
  (forall v g, 0 <= v <= 6000 -> P v (mk_world (base w) g)) ->
  wp (_generate_rpm ignition speed) P w.
Proof.
  intros H. unfold _generate_rpm.
  destruct (ignition =? 0).
  { apply wp_ret. destruct w; apply H; lia. }
  destruct (speed =? 0); [|destruct (speed <? 40); [|destruct (speed <? 80)]];
    (apply wp_randint; [lia|]); intros v g Hv; apply H; lia.
Qed.

Lemma wp_generate_engine_temp ignition engine_load (P : Z -> world -> Prop) w :
  (forall v g, -60 <= v <= 100 -> P v (mk_world (base w) g)) ->
  wp (_generate_engine_temp ignition engine_load) P w.
Proof.
  intros H. unfold _generate_engine_temp.
  destruct (ignition =? 0); [|destruct (engine_load <? 30)];
    (apply wp_randint; [lia|]); intros v g Hv; apply H; lia.
Qed.

Lemma wp_generate_fuel_consumption speed engine_load movement
      (P : Q -> world -> Prop) w :
  (movement <> 0 -> 0 <= speed <= 350) -> 30 <= engine_load <= 70 ->
  (forall c g,
      (movement = 0 -> (0.2 <= c /\ c <= 0.8)%Q) ->
      (movement <> 0 -> (9.0 <= c /\ c <= 35.5)%Q) ->
      P c (mk_world (base w) g)) ->
  wp (_generate_fuel_consumption speed engine_load movement) P w.
Proof.
  intros Hs Hl H. unfold _generate_fuel_consumption.
  destruct (Z.eqb_spec movement 0) as [E|NE].
  - apply wp_bind, wp_uniform; [lra|]. intros u g [Hu1 Hu2]. apply wp_ret.
    apply H; [intros _ | congruence].
    split.
    + apply (@py_round_ge 2 0.2 u 1); [vm_compute; reflexivity | exact Hu1].
    + apply (@py_round_le 8 0.8 u 1); [vm_compute; reflexivity | exact Hu2].
  - apply wp_bind, wp_uniform; [lra|]. intros u g [Hu1 Hu2]. apply wp_ret.
    apply H; [congruence | intros _]. specialize (Hs NE).
    assert (Hs1 : (0 <= inject_Z speed /\ inject_Z speed <= 350)%Q).
    { split; [change 0%Q with (inject_Z 0) | change 350%Q with (inject_Z 350)];
        rewrite <- Zle_Qle; lia. }
    assert (Hl1 : (30 <= inject_Z engine_load /\ inject_Z engine_load <= 70)%Q).
    { split; [change 30%Q with (inject_Z 30) | change 70%Q with (inject_Z 70)];
        rewrite <- Zle_Qle; lia. }
    generalize dependent (inject_Z speed). intros qs Hs1.
    generalize dependent (inject_Z engine_load). intros ql Hl1.
    split.
    + apply (@py_round_ge 90 9.0 _ 1); [vm_compute; reflexivity|].
      unfold Qdiv; change (/ 20)%Q with (1 # 20)%Q;
        change (/ 10)%Q with (1 # 10)%Q; lra.
    + apply (@py_round_le 355 35.5 _ 1); [vm_compute; reflexivity|].
      unfold Qdiv; change (/ 20)%Q with (1 # 20)%Q;
        change (/ 10)%Q with (1 # 10)%Q; lra.
Qed.

Lemma list_set_length {A} (l : list A) j v :
  List.length (random.list_set l j v) = List.length l.
Proof.
  revert j. induction l as [|x l IH]; intros [|j]; simpl; auto.
Qed.

Lemma list_set_incl {A} (l : list A) j v :
  incl (random.list_set l j v) (v :: l).
Proof.
  revert j. induction l as [|x l IH]; intros [|j]; simpl.
  - apply incl_nil_l.
  - apply incl_nil_l.
  - intros y [<-|Hy]; simpl; auto.
  - intros y [<-|Hy]; simpl; auto.
    destruct (IH j y Hy) as [<-|Hy']; auto.
Qed.

Lemma wp_sample_loop {A} (d : A) (population : list A) n todo :
  forall i pool (P : list A -> world -> Prop) w,
    List.length pool = n -> (i + todo <= n)%nat -> incl pool population ->
    (forall l g, List.length l = todo -> incl l population ->
                 P l (mk_world (base w) g)) ->
    wp (random.sample_loop d n pool i todo) P w.
Proof.
  induction todo as [|todo IH]; intros i pool P w Hlen Hi Hincl H; simpl.
  - apply wp_ret. destruct w. apply H; [reflexivity | apply incl_nil_l].
  - apply wp_bind, wp_randbelow; [lia|]. intros j g Hj.
    apply wp_bind.
    assert (Hj' : (Z.to_nat j < List.length pool)%nat) by lia.
    assert (Hlast : (n - i - 1 < List.length pool)%nat) by lia.
    apply IH.
    + rewrite list_set_length. exact Hlen.
    + lia.
    + intros y Hy. apply list_set_incl in Hy. destruct Hy as [<-|Hy].
      * apply Hincl, nth_In, Hlast.
      * apply Hincl, Hy.
    + intros l g' Hl Hl'. apply wp_ret. apply H.
      * simpl. f_equal. exact Hl.
      * intros y [<-|Hy]; [apply Hincl, nth_In, Hj' | apply Hl', Hy].
Qed.

Lemma wp_sample {A} (d : A) (population : list A) k
      (P : list A -> world -> Prop) w :
  0 <= k <= Z.of_nat (List.length population) ->
  (forall l g, Z.of_nat (List.length l) = k -> incl l population ->
               P l (mk_world (base w) g)) ->
  wp (random.sample d population k) P w.
Proof.
  intros Hk H. unfold random.sample.
  apply wp_sample_loop with (population := population).
  - reflexivity.
  - lia.
  - apply incl_refl.
  - intros l g Hl Hin. apply H; [lia | exact Hin].
Qed.

Lemma wp_generate_obd_faults (P : list string -> world -> Prop) w :
  (forall l g, (List.length l <= 3)%nat -> incl l _obd_faults_pool ->
               P l (mk_world (base w) g)) ->
  wp _generate_obd_faults P w.
Proof.
  intros H. unfold _generate_obd_faults.
  apply wp_bind, wp_random. intros u g _.
  destruct (Qltb u 0.15).
  - apply wp_bind, wp_randint; [lia|]. intros k g' Hk.
    apply wp_sample; [simpl; lia|]. intros l g'' Hl Hin.
    apply H; [lia | exact Hin].
  - apply wp_ret. apply H; [simpl; lia | apply incl_nil_l].
Qed.

Lemma wp_generate_event_data speed prev_speed
      (P : option Z * Z -> world -> Prop) w :
  (forall ev g, event_spec speed prev_speed ev -> P ev (mk_world (base w) g)) ->
  wp (_generate_event_data speed (Some prev_speed)) P w.
Proof.
  intros H. unfold _generate_event_data.
  destruct (Z.gtb_spec (speed - prev_speed) 5) as [Hacc|Hacc].
  { apply wp_ret. destruct w. apply H. left.
    cbn [fst snd]. repeat split; [lia|]. f_equal. lia. }
  destruct (Z.ltb_spec (speed - prev_speed) (-5)) as [Hbrk|Hbrk].
  { apply wp_ret. destruct w. apply H. right; left.
    cbn [fst snd]. repeat split; [lia|]. f_equal. lia. }
  apply wp_bind, wp_random. intros u g _.
  apply wp_bind, wp_randint; [lia|]. intros gv g' Hgv.
  apply wp_ret. apply H. right; right. split; [lia|]. split; [|exact Hgv].
  simpl. destruct (Qltb u 0.3); auto.
Qed.

Lemma wp_generate_gps_coordinate (P : string -> world -> Prop) w :
  (forall dlat dlon g,
      (-0.001 <= dlat /\ dlat <= 0.001)%Q -> (-0.001 <= dlon /\ dlon <= 0.001)%Q ->
      let lat := (State.lat (base w) + dlat)%Q in
      let lon := (State.lon (base w) + dlon)%Q in
      P ("+" ++ format_5f lat ++ format_5f lon ++ "/")%string
        (mk_world (State.set_lon lon (State.set_lat lat (base w))) g)) ->
  wp _generate_gps_coordinate P w.
Proof.
  intros H. unfold _generate_gps_coordinate.
  apply wp_bind, wp_uniform; [lra|]. intros dlat g Hlat.
  apply wp_bind, wp_uniform; [lra|]. intros dlon g' Hlon.
  apply wp_bind, wp_modify. apply wp_bind, wp_modify.
  apply wp_bind, wp_read. apply wp_bind, wp_read. apply wp_ret.
  apply (H dlat dlon g' Hlat Hlon).
Qed.

(** * One tick *)

Ltac state_goal :=
  cbn [base entropy State.lat State.lon State.total_odo State.trip_odo
       State.fuel_level State.oil_level State.ignition State.in_motion
       State.speed State.fuel_used_total State.get_fuel_used_total
       State.set_lat State.set_lon State.set_total_odo State.set_trip_odo
       State.set_fuel_level State.set_ignition State.set_in_motion
       State.set_speed State.set_fuel_used_total andb].

Ltac split_cond c :=
  match c with
  | context [Z.eqb ?a ?b] => destruct (Z.eqb_spec a b)
  | context [Qltb ?a ?b] => destruct (Qltb a b)
  end.

Ltac wp_step :=
  lazymatch goal with
  | |- wp (bind _ _) _ _ => apply wp_bind
  | |- wp (ret _) _ _ => apply wp_ret
  | |- wp (read _) _ _ => apply wp_read
  | |- wp (modify _) _ _ => apply wp_modify
  | |- wp random.random _ _ => apply wp_random; intros ? ? ?
  | |- wp (random.randint _ _) _ _ => apply wp_randint; [lia | intros ? ? ?]
  | |- wp (random.uniform _ _) _ _ => apply wp_uniform; [lra | intros ? ? ?]
  | |- wp (_generate_rpm _ _) _ _ => apply wp_generate_rpm; intros ? ? ?
  | |- wp (_generate_engine_temp _ _) _ _ =>
      apply wp_generate_engine_temp; intros ? ? ?
  | |- wp (_generate_fuel_consumption _ _ _) _ _ =>
      apply wp_generate_fuel_consumption; [lia | lia | intros ? ? ? ?]
  | |- wp _generate_gps_coordinate _ _ =>
      apply wp_generate_gps_coordinate; intros ? ? ? ? ?
  | |- wp _generate_obd_faults _ _ =>
      apply wp_generate_obd_faults; intros ? ? ? ?
  | |- wp (_generate_event_data _ _) _ _ =>
      apply wp_generate_event_data; intros [? ?] ? ?
  | |- wp (if ?c then _ else _) _ _ => split_cond c
  end; state_goal.

Ltac record_goal :=
  cbn [TelemetryData.ignition_status TelemetryData.movement_status
       TelemetryData.speed TelemetryData.gps_location
       TelemetryData.gsm_signal TelemetryData.rpm TelemetryData.engine_temp
       TelemetryData.engine_load TelemetryData.oil_level
       TelemetryData.fuel_level TelemetryData.fuel_used_gps
       TelemetryData.instant_consumption TelemetryData.obd_faults
       TelemetryData.odometer_total TelemetryData.odometer_trip
       TelemetryData.event_type TelemetryData.event_g_value].

(** The tick, field by field: every path through [telemetry_kwargs] ends in
    [tick_post]. *)
Lemma telemetry_kwargs_spec w : wp telemetry_kwargs (tick_post w) w.
Proof.
  destruct w as [[lat lon total trip fuel oil ign mot spd used] g].
  unfold telemetry_kwargs.
  repeat wp_step.
  all: constructor; state_goal; record_goal.
  all: try reflexivity; try assumption; try tauto; try lia.
  all: unfold speed_step;
    repeat match goal with
           | |- context [Z.eqb ?a ?b] => destruct (Z.eqb_spec a b)
           end;
    try lia; try reflexivity.
  all: try (eexists; split; [ | reflexivity]; eassumption).
  all: try (eexists; split; [reflexivity | assumption]).
  all: try (right; eexists; split; [ | reflexivity]; eassumption).
Qed.

(** * Running a tick *)

Lemma new_ok a r :
  TelemetryData.new a = Ok r -> r = a /\ TelemetryData.errors a = [].
Proof.
  unfold TelemetryData.new. destruct (TelemetryData.errors a); [|discriminate].
  intros [= <-]. auto.
Qed.

Lemma tick_run w r w' :
  generate_telemetry_data w = (r, w') ->
  exists a, telemetry_kwargs w = (a, w') /\ r = TelemetryData.new a
            /\ tick_post w a w'.
Proof.
  unfold generate_telemetry_data, bind, ret. intros E.
  pose proof (telemetry_kwargs_spec w) as H. unfold wp in H.
  destruct (telemetry_kwargs w) as [a w1]. simpl in H.
  injection E as <- <-. exists a. auto.
Qed.

Lemma tick_record w r w' :
  generate_telemetry_data w = (Ok r, w') -> tick_post w r w'.
Proof.
  intros E. apply tick_run in E. destruct E as (a & _ & Hr & Hp).
  symmetry in Hr. apply new_ok in Hr. destruct Hr as [-> _]. exact Hp.
Qed.

(** The counters never go down in a tick. *)
Lemma tick_monotone w :
  let b := base w in
  let b' := base (snd (generate_telemetry_data w)) in
  State.total_odo b <= State.total_odo b'
  /\ State.trip_odo b <= State.trip_odo b'
  /\ (State.get_fuel_used_total 150.0 b <= State.get_fuel_used_total 150.0 b')%Q.
Proof.
  destruct (generate_telemetry_data w) as [r w'] eqn:E. simpl.
  apply tick_run in E. destruct E as (a & _ & _ & Hp).
  pose proof (tp_total_odo_step Hp) as Ht.
  pose proof (tp_trip_odo_step Hp) as Hr.
  pose proof (tp_fuel_used_step Hp) as Hf.
  pose proof (tp_consumption_moving Hp) as Hc.
  destruct (Z.eqb_spec (TelemetryData.movement_status a) 1) as [E1|NE].
  - destruct Ht as (i1 & ? & ->). destruct Hr as (i2 & ? & ->).
    repeat split; try lia.
    unfold State.get_fuel_used_total at 2. rewrite Hf.
    destruct Hc as [Hc _]; [lia|].
    set (x := State.get_fuel_used_total 150.0 (base w)).
    unfold Qdiv. change (/ 7200)%Q with (1 # 7200)%Q. lra.
  - rewrite Ht, Hr. repeat split; try lia.
    unfold State.get_fuel_used_total. rewrite Hf. apply Qle_refl.
Qed.

Lemma later_monotone b b' :
  later b b' ->
  State.total_odo b <= State.total_odo b'
  /\ State.trip_odo b <= State.trip_odo b'
  /\ (State.get_fuel_used_total 150.0 b <= State.get_fuel_used_total 150.0 b')%Q.
Proof.
  induction 1 as [b | w b' _ IH].
  - repeat split; try lia. apply Qle_refl.
  - destruct (tick_monotone w) as (H1 & H2 & H3).
    destruct IH as (I1 & I2 & I3).
    repeat split; try lia. eapply Qle_trans; eassumption.
Qed.

(** * The generator's constructor *)

Lemma wp_random_digits n (P : string -> world -> Prop) w :
  (forall s g, P s (mk_world (base w) g)) -> wp (random_digits n) P w.
Proof.
  revert P w. induction n as [|n IH]; intros P w H; simpl.
  - apply wp_ret. destruct w. apply H.
  - apply wp_bind, wp_randint; [lia|]. intros d g _.
    apply wp_bind, IH. intros s g'. apply wp_ret, H.
Qed.

Lemma validate_imei_config_result settings w :
  match Settings.imei_list settings with
  | x :: _ => fst (Settings.validate_imei_config settings w) = Ok x
  | [] =>
      if Settings.ALLOW_GENERATE_IMEI settings
      then exists s, fst (Settings.validate_imei_config settings w) = Ok s
      else fst (Settings.validate_imei_config settings w)
           = Raise (RuntimeError "DEVICE_IMEI no configurado")
  end.
Proof.
  unfold Settings.validate_imei_config.
  destruct (Settings.imei_list settings) as [|x l]; [|reflexivity].
  destruct (Settings.ALLOW_GENERATE_IMEI settings); [|reflexivity].
  unfold bind, ret. destruct (generate_random_imei w) as [s w1]. simpl. eauto.
Qed.

Lemma validate_imei_config_state settings (P : result string -> world -> Prop) w :
  (forall r g, P r (mk_world (base w) g)) ->
  wp (Settings.validate_imei_config settings) P w.
Proof.
  intros H. unfold Settings.validate_imei_config.
  destruct (Settings.imei_list settings) as [|x l].
  - destruct (Settings.ALLOW_GENERATE_IMEI settings).
    + apply wp_bind. unfold generate_random_imei. apply wp_random_digits.
      intros s g. apply wp_ret, H.
    + apply wp_ret. destruct w. apply H.
  - apply wp_ret. destruct w. apply H.
Qed.

Lemma init_spec settings w :
  wp (__init__ settings) (fun _ w' => init_post w w') w.
Proof.
  unfold __init__.
  apply wp_bind, wp_choice; [discriminate|]. intros i g Hi.
  apply wp_bind, wp_modify. apply wp_bind, wp_choice; [discriminate|].
  intros m g' Hm. apply wp_bind, wp_modify. apply wp_bind, wp_read.
  cbn [base State.ignition State.set_in_motion State.set_ignition].
  assert (Hi' : i = 0 \/ i = 1) by (simpl in Hi; intuition).
  assert (Hm' : m = 0 \/ m = 1) by (simpl in Hm; intuition).
  apply wp_bind.
  apply wp_mono with
    (P := fun s w1 => 0 <= s <= 80 /\ (i = 0 -> s = 0)
            /\ base w1 = State.set_in_motion m (State.set_ignition i (base w))).
  { destruct (Z.eqb_spec i 0) as [E|NE].
    - apply wp_ret. simpl. repeat split; auto; lia.
    - apply wp_randint; [lia|]. intros s g0 Hs. simpl. repeat split; auto; lia. }
  intros s w1 (Hs & Hs0 & Hb). apply wp_bind, wp_modify.
  assert (Hdone : forall g0,
             init_post w (mk_world (State.set_speed s (base w1)) g0)).
  { intros g0. exists i, m, s. rewrite Hb. simpl. auto. }
  destruct (is_empty (Settings.imei_list settings)
            && Settings.ALLOW_GENERATE_IMEI settings);
    [|destruct (is_empty (Settings.imei_list settings))].
  - apply wp_bind, validate_imei_config_state. intros r g0.
    destruct r; apply wp_ret; apply Hdone.
  - apply wp_ret. apply Hdone.
  - apply wp_bind, validate_imei_config_state. intros r g0.
    destruct r; apply wp_ret; apply Hdone.
Qed.

Lemma init_result settings w :
  wp (__init__ settings) (fun r _ => init_returns settings r) w.
Proof.
  unfold __init__.
  apply wp_bind, wp_choice; [discriminate|]. intros i g _.
  apply wp_bind, wp_modify. apply wp_bind, wp_choice; [discriminate|].
  intros m g' _. apply wp_bind, wp_modify. apply wp_bind, wp_read.
  apply wp_bind.
  apply wp_mono with (P := fun _ _ => True).
  { unfold wp. exact I. }
  intros spd w1 _. apply wp_bind, wp_modify.
  generalize (mk_world (State.set_speed spd (base w1)) (entropy w1)).
  intros w2. unfold init_returns.
  pose proof (validate_imei_config_result settings w2) as Hv.
  destruct (Settings.imei_list settings) as [|x l]; cbn [is_empty andb].
  - destruct (Settings.ALLOW_GENERATE_IMEI settings).
    + destruct Hv as (s & Hs). apply wp_bind. unfold wp. rewrite Hs.
      unfold ret. simpl. eauto.
    + apply wp_ret. reflexivity.
  - apply wp_bind. unfold wp. rewrite Hv. reflexivity.
Qed.

(** * The invariant of reachable states *)

Lemma Qltb_true a b : Qltb a b = true -> (a < b)%Q.
Proof.
  unfold Qltb. intros H. apply negb_true_iff in H.
  apply Qnot_le_lt. intros Hle. apply Qle_bool_iff in Hle. congruence.
Qed.

Lemma Qltb_false a b : Qltb a b = false -> (b <= a)%Q.
Proof.
  unfold Qltb. intros H. apply negb_false_iff in H.
  apply Qle_bool_iff. exact H.
Qed.

Lemma Qmax'_bounds x hi :
  (x <= hi)%Q -> (0 <= hi)%Q -> (0 <= Qmax' 0 x /\ Qmax' 0 x <= hi)%Q.
Proof.
  intros Hx Hhi. unfold Qmax'. destruct (Qltb 0 x) eqn:E.
  - apply Qltb_true in E. split; lra.
  - split; lra.
Qed.

Lemma init_inv settings w :
  State.oil_level (base w) = 80 ->
  (0 <= State.fuel_level (base w) /\ State.fuel_level (base w) <= 68)%Q ->
  2456789 <= State.total_odo (base w) ->
  34567 <= State.trip_odo (base w) ->
  (150 <= State.get_fuel_used_total 150.0 (base w))%Q ->
  state_inv (base (snd (__init__ settings w))).
Proof.
  intros Hoil Hfuel Htot Htrip Hused.
  pose proof (init_spec settings w) as H. unfold wp in H.
  destruct H as (i & m & s & Hi & Hm & Hs & Hs0 & ->).
  constructor; simpl; auto; lia.
Qed.

Lemma tick_inv w :
  state_inv (base w) -> state_inv (base (snd (generate_telemetry_data w))).
Proof.
  intros [Hi Hm Hs Hs0 Ho Hf Ht Hr Hu].
  pose proof (tick_monotone w) as (Mt & Mr & Mu).
  destruct (generate_telemetry_data w) as [r w'] eqn:E. simpl in *.
  apply tick_run in E. destruct E as (a & _ & _ & Hp).
  pose proof (tp_speed_step Hp) as Hstep. unfold speed_step in Hstep.
  constructor.
  - destruct (tp_ignition_step Hp) as [->| ->]; lia.
  - destruct (tp_in_motion_step Hp) as [->| ->]; lia.
  - destruct (State.ignition (base w') =? 0); [lia|].
    destruct (TelemetryData.movement_status a =? 0);
      destruct Hstep as (d & Hd & ->); lia.
  - intros E0. rewrite E0 in Hstep. exact Hstep.
  - rewrite (tp_oil_state Hp). exact Ho.
  - destruct (tp_fuel_level_step Hp) as [-> | (dec & Hdec & ->)];
      [exact Hf|].
    apply Qmax'_bounds; lra.
  - lia.
  - lia.
  - lra.
Qed.

Lemma reachable_inv b : reachable b -> state_inv b.
Proof.
  induction 1 as [settings w Hw | settings w _ IH | w _ IH].
  - apply init_inv; rewrite Hw.
    + reflexivity.
    + split; discriminate.
    + discriminate.
    + discriminate.
    + discriminate.
  - destruct IH. apply init_inv; assumption.
  - apply tick_inv, IH.
Qed.

(** * Validation *)

Lemma py_int_bounds (x : Q) (k : Z) :
  (0 <= x)%Q -> (x <= inject_Z k)%Q -> 0 <= py_int x <= k.
Proof.
  intros H0 Hk.
  assert (E : py_int x = Qfloor x).
  { unfold py_int, Qfloor. destruct x as [n d]. simpl.
    apply Z.quot_div_nonneg; [|lia].
    unfold Qle in H0. simpl in H0. lia. }
  rewrite E. split.
  - change 0 with (Qfloor 0). apply Qfloor_resp_le, H0.
  - rewrite <- (Qfloor_Z k). apply Qfloor_resp_le, Hk.
Qed.

(** From a reachable state whose counters leave room for one more tick, the
    tick produces a record: no field constraint fails. *)
Lemma tick_ok w :
  reachable (base w) ->
  State.total_odo (base w) <= 2147483147 ->
  State.trip_odo (base w) <= 2147483147 ->
  (State.get_fuel_used_total 150.0 (base w) <= 4294966)%Q ->
  exists r, generate_telemetry_data w = (Ok r, snd (generate_telemetry_data w)).
Proof.
  intros Hreach Htot Htrip Hused.
  pose proof (reachable_inv Hreach) as Hinv.
  pose proof (tick_inv w Hinv) as Hinv'.
  destruct (generate_telemetry_data w) as [r w'] eqn:E. simpl in *.
  pose proof E as E'. apply tick_run in E'. destruct E' as (a & _ & -> & Hp).
  destruct Hinv as [Hi Hm Hs Hs0 Ho Hf Ht Hr Hu].
  destruct Hinv' as [Hi' Hm' Hs' Hs0' Ho' Hf' Ht' Hr' Hu'].
  assert (Hmv : TelemetryData.movement_status a = 0
                \/ TelemetryData.movement_status a = 1).
  { rewrite (tp_movement Hp). destruct (State.ignition (base w') =? 1); lia. }
  assert (Herr : TelemetryData.errors a = []).
  { unfold TelemetryData.errors, TelemetryData.check,
      TelemetryData.in_range, TelemetryData.in_rangeQ.
    rewrite (tp_ignition Hp), (tp_speed Hp),
      (tp_odometer_total Hp), (tp_odometer_trip Hp), (tp_fuel_level Hp),
      (tp_fuel_used Hp).
    pose proof (tp_gsm_signal Hp). pose proof (tp_rpm Hp).
    pose proof (tp_engine_temp Hp). pose proof (tp_engine_load Hp).
    destruct (tp_oil Hp) as (d & Hd & ->). rewrite Ho.
    destruct (tp_event Hp) as (g & -> & Hev).
    pose proof (tp_total_odo_step Hp) as Hto.
    pose proof (tp_trip_odo_step Hp) as Htr.
    pose proof (tp_fuel_used_step Hp) as Hfu.
    pose proof (tp_consumption_idle Hp) as Hci.
    pose proof (tp_consumption_moving Hp) as Hcm.
    pose proof (@py_int_bounds (State.fuel_level (base w')) 68
                  (proj1 Hf') (proj2 Hf')) as Hfl.
    assert (Hic : (0 <= TelemetryData.instant_consumption a
                   /\ TelemetryData.instant_consumption a <= 35.5)%Q).
    { destruct (Z.eq_dec (TelemetryData.movement_status a) 0) as [E0|NE].
      - destruct (Hci E0). split; lra.
      - destruct (Hcm NE). split; lra. }
    assert (Hfu' : (State.get_fuel_used_total 150.0 (base w') <= 4294967)%Q).
    { unfold State.get_fuel_used_total at 1. rewrite Hfu.
      destruct (TelemetryData.movement_status a =? 1).
      - unfold Qdiv. change (/ 7200)%Q with (1 # 7200)%Q. lra.
      - fold (State.get_fuel_used_total 150.0 (base w)). lra. }
    assert (Hround : (0 <= py_round (State.get_fuel_used_total 150.0 (base w')) 2
                      /\ py_round (State.get_fuel_used_total 150.0 (base w')) 2
                         <= 4294967)%Q).
    { split.
      - apply (@py_round_ge 0 0 _ 2); [vm_compute; reflexivity | lra].
      - apply (@py_round_le 429496700 4294967 _ 2);
          [vm_compute; reflexivity | lra]. }
    assert (Hevt : TelemetryData.in_range_opt 1 3 (TelemetryData.event_type a)
                   = true /\ 10 <= g <= 255).
    { unfold event_spec in Hev. cbn [fst snd] in Hev.
      destruct Hev as [(? & -> & ->)|[(? & -> & ->)|(? & [-> | ->] & ?)]];
        split; try reflexivity; lia. }
    destruct Hevt as [-> Hg].
    unfold TelemetryData.in_range_opt, TelemetryData.in_range.
    destruct (Z.eqb_spec (TelemetryData.movement_status a) 1);
      [destruct Hto as (i1 & Hi1 & Hto); destruct Htr as (i2 & Hi2 & Htr)|];
    repeat match goal with
           | |- context [(?x <=? ?y)] =>
               let L := fresh in
               assert (L : (x <=? y) = true) by (apply Z.leb_le; lia);
               rewrite L; clear L
           | |- context [Qle_bool ?x ?y] =>
               let L := fresh in
               assert (L : Qle_bool x y = true) by (apply Qle_bool_iff; lra);
               rewrite L; clear L
           end.
    all: reflexivity. }
  unfold TelemetryData.new. rewrite Herr. eauto.
Qed.

(** * The configuration on concrete input *)

Example settings_new_strips :
  Settings.new (Some " 352099001761481 "%string) None false
  = Ok demo_settings.
Proof. reflexivity. Qed.

Example settings_new_malformed :
  Settings.new (Some "35209900176148x"%string) None true
  = Raise (ValueError "35209900176148x").
Proof. reflexivity. Qed.

Example imei_list_merges :
  Settings.imei_list
    (Settings.mk (Some "352099001761481"%string)
       (Some "111111111111111, 12345,,222222222222222"%string) false)
  = ["352099001761481"; "111111111111111"; "222222222222222"]%string.
Proof. reflexivity. Qed.

(** * The claims *)

(** What holds of the fault list in every tick: at most three entries, all
    taken from the catalog. *)
Lemma obd_faults_from_catalog (w w' : world) (r : TelemetryData.t) :
  generate_telemetry_data w = (Ok r, w') ->
  (List.length (TelemetryData.obd_faults r) <= 3)%nat
  /\ incl (TelemetryData.obd_faults r) _obd_faults_pool.
Proof.
  intros E. apply tick_record in E.
  split; [apply (tp_obd_length E) | apply (tp_obd_incl E)].
Qed.

(** C1, the code at the failing input: the catalog lists P0420 at positions
    1 and 9, and a tick whose sample picks both positions produces a record
    with that code twice. *)
Theorem obd_faults_duplicate :
  nth 1 _obd_faults_pool EmptyString = nth 9 _obd_faults_pool EmptyString
  /\ ~ NoDup _obd_faults_pool
  /\ reachable (base fault_world)
  /\ exists r w',
       generate_telemetry_data fault_world = (Ok r, w')
       /\ TelemetryData.obd_faults r = ["P0420"; "P0420"]%string
       /\ ~ NoDup (TelemetryData.obd_faults r).
Proof.
  split; [reflexivity|]. split.
  { unfold _obd_faults_pool. intros H.
    inversion H as [|x l _ H1]; subst. inversion H1 as [|y l' Hy _]; subst.
    apply Hy. simpl. intuition. }
  split.
  { exact (reach_init demo_settings
             (mk_world _base_state (replay fault_entropy)) eq_refl). }
  eexists. eexists. split; [vm_compute; reflexivity|].
  split; [reflexivity|].
  intros H. inversion H as [|x l Hx _]; subst. apply Hx. left. reflexivity.
Qed.

Lemma get_current_imei_rotates settings self w :
  (1 < List.length (_imeis self))%nat ->
  let idx := ((_imei_index self + 1) mod List.length (_imeis self))%nat in
  _get_current_imei settings self w
  = ((nth idx (_imeis self) EmptyString,
      mk idx (_imeis self) (_selected_imei self)), w).
Proof.
  intros Hlen. unfold _get_current_imei.
  destruct (Nat.ltb_spec 1 (List.length (_imeis self))); [reflexivity | lia].
Qed.

Lemma get_current_imei_single settings idx x sel w :
  _get_current_imei settings (mk idx [x] sel) w = ((x, mk idx [x] sel), w).
Proof. reflexivity. Qed.

Lemma current_imeis_single settings idx x sel n w :
  current_imeis n settings (mk idx [x] sel) w
  = ((repeat x n, mk idx [x] sel), w).
Proof.
  induction n as [|n IH]; [reflexivity|].
  simpl. unfold bind. rewrite get_current_imei_single. simpl.
  rewrite IH. reflexivity.
Qed.

(** C2: a generator constructed on a configuration whose identifier list is
    [a; b; c] answers seven successive calls with b, c, a, b, c, a, b; each
    call with more than one identifier moves the cursor to
    (cursor + 1) mod length and returns that entry; with exactly one
    identifier every call returns it. *)
Theorem round_robin_selection (settings : Settings.t) (w : world) :
  (forall a b c,
      Settings.imei_list settings = [a; b; c] ->
      exists self w',
        __init__ settings w = (Ok self, w')
        /\ forall w0,
             fst (fst (current_imeis 7 settings self w0))
             = [b; c; a; b; c; a; b])
  /\ (forall self w0,
         (1 < List.length (_imeis self))%nat ->
         let idx := ((_imei_index self + 1) mod List.length (_imeis self))%nat in
         (idx < List.length (_imeis self))%nat
         /\ _get_current_imei settings self w0
            = ((nth idx (_imeis self) EmptyString,
                mk idx (_imeis self) (_selected_imei self)), w0))
  /\ (forall x,
         Settings.imei_list settings = [x] ->
         exists self w',
           __init__ settings w = (Ok self, w')
           /\ forall n w0,
                fst (fst (current_imeis n settings self w0)) = repeat x n).
Proof.
  pose proof (init_result settings w) as Hinit. unfold wp, init_returns in Hinit.
  destruct (__init__ settings w) as [r w'] eqn:E. simpl in Hinit.
  split; [|split].
  - intros a b c Hl. rewrite Hl in Hinit. subst r.
    exists (mk 0 [a; b; c] a), w'. split; [reflexivity|].
    intros w0. reflexivity.
  - intros self w0 Hlen. cbv zeta. split.
    + apply Nat.mod_upper_bound. lia.
    + apply get_current_imei_rotates, Hlen.
  - intros x Hl. rewrite Hl in Hinit. subst r.
    exists (mk 0 [x] x), w'. split; [reflexivity|].
    intros n w0. rewrite current_imeis_single. reflexivity.
Qed.

Lemma round_robin_selection_witness :
  Settings.imei_list three_settings
  = ["111111111111111"; "222222222222222"; "333333333333333"]%string
  /\ exists self w',
       __init__ three_settings (mk_world _base_state (replay demo_entropy))
       = (Ok self, w')
       /\ fst (fst (current_imeis 7 three_settings self w'))
          = ["222222222222222"; "333333333333333"; "111111111111111";
             "222222222222222"; "333333333333333"; "111111111111111";
             "222222222222222"]%string.
Proof.
  split; [reflexivity|].
  destruct (round_robin_selection three_settings
              (mk_world _base_state (replay demo_entropy))) as (H3 & _ & _).
  destruct (H3 "111111111111111" "222222222222222" "333333333333333"
              eq_refl)%string as (self & w' & E & Hcalls).
  exists self, w'. split; [exact E | apply Hcalls].
Defined.

(** C3: from every reachable state, a tick leaves the speed in [0,350] and
    at 0 when the ignition is off; the speed is set to 0 with the ignition
    off, to max(0, speed - d) with d in [0,5] when stationary, and to
    clamp(speed + d, 0, 350) with d in [-3,8] when moving.  A record that
    the tick produces reports this ignition and this speed. *)
Theorem speed_invariant_after_tick
        (w w' : world) (r : result TelemetryData.t) :
  reachable (base w) ->
  generate_telemetry_data w = (r, w') ->
  let b := base w in
  let b' := base w' in
  0 <= State.speed b' <= 350
  /\ (State.ignition b' = 0 \/ State.ignition b' = 1)
  /\ (State.in_motion b' = 0 \/ State.in_motion b' = 1)
  /\ (State.ignition b' = 0 -> State.speed b' = 0)
  /\ (State.ignition b' = 1 -> State.in_motion b' = 0 ->
      exists d, 0 <= d <= 5 /\ State.speed b' = Z.max 0 (State.speed b - d))
  /\ (State.ignition b' = 1 -> State.in_motion b' = 1 ->
      exists d, -3 <= d <= 8
        /\ State.speed b' = Z.max 0 (Z.min 350 (State.speed b + d)))
  /\ (forall a, r = Ok a ->
      TelemetryData.ignition_status a = State.ignition b'
      /\ TelemetryData.speed a = State.speed b'
      /\ 0 <= TelemetryData.speed a <= 350
      /\ (TelemetryData.ignition_status a = 0 -> TelemetryData.speed a = 0)).
Proof.
  intros Hreach E. cbv zeta.
  pose proof (reachable_inv (reach_tick w Hreach)) as Hinv.
  rewrite E in Hinv. simpl in Hinv.
  destruct Hinv as [Hi Hm Hs Hs0 _].
  pose proof E as E'. apply tick_run in E'. destruct E' as (a & _ & Hr & Hp).
  pose proof (tp_speed_step Hp) as Hstep. unfold speed_step in Hstep.
  rewrite (tp_movement Hp) in Hstep.
  repeat split; try assumption; try lia.
  - intros E1 E0. rewrite E1, E0 in Hstep. exact Hstep.
  - intros E1 E0. rewrite E1, E0 in Hstep. exact Hstep.
  - subst r. apply new_ok in H. destruct H as [-> _]. apply (tp_ignition Hp).
  - subst r. apply new_ok in H. destruct H as [-> _]. apply (tp_speed Hp).
  - subst r. apply new_ok in H. destruct H as [-> _].
    rewrite (tp_speed Hp). lia.
  - subst r. apply new_ok in H. destruct H as [-> _].
    rewrite (tp_speed Hp). lia.
  - subst r. apply new_ok in H. destruct H as [-> _].
    rewrite (tp_speed Hp), (tp_ignition Hp). exact Hs0.
Qed.

Lemma speed_invariant_after_tick_witness :
  exists r w',
    generate_telemetry_data demo_world = (r, w')
    /\ 0 <= State.speed (base w') <= 350
    /\ (State.ignition (base w') = 0 -> State.speed (base w') = 0).
Proof.
  eexists. eexists. split; [vm_compute; reflexivity|].
  edestruct (@speed_invariant_after_tick demo_world) as (H1 & _ & _ & H2 & _).
  - exact (reach_init demo_settings
             (mk_world _base_state (replay demo_entropy)) eq_refl).
  - vm_compute. reflexivity.
  - split; [exact H1 | exact H2].
Defined.

(** C4: across ticks of one generator, the total odometer, the trip
    odometer and the cumulative fuel-used value of a later record are each
    at least those of an earlier record. *)
Theorem counters_non_decreasing (w w1 w2 w3 : world) (r1 r2 : TelemetryData.t) :
  generate_telemetry_data w = (Ok r1, w1) ->
  later (base w1) (base w2) ->
  generate_telemetry_data w2 = (Ok r2, w3) ->
  TelemetryData.odometer_total r1 <= TelemetryData.odometer_total r2
  /\ TelemetryData.odometer_trip r1 <= TelemetryData.odometer_trip r2
  /\ (TelemetryData.fuel_used_gps r1 <= TelemetryData.fuel_used_gps r2)%Q.
Proof.
  intros E1 Hl E2.
  apply tick_record in E1. pose proof (tick_monotone w2) as Hm.
  rewrite E2 in Hm. simpl in Hm. apply tick_record in E2.
  apply later_monotone in Hl.
  rewrite (tp_odometer_total E1), (tp_odometer_total E2).
  rewrite (tp_odometer_trip E1), (tp_odometer_trip E2).
  rewrite (tp_fuel_used E1), (tp_fuel_used E2).
  destruct Hl as (L1 & L2 & L3). destruct Hm as (M1 & M2 & M3).
  repeat split; try lia.
  apply py_round_mono. eapply Qle_trans; eassumption.
Qed.

Lemma counters_non_decreasing_witness :
  exists r1 r2 w1 w3,
    generate_telemetry_data demo_world = (Ok r1, w1)
    /\ generate_telemetry_data w1 = (Ok r2, w3)
    /\ TelemetryData.odometer_total r1 <= TelemetryData.odometer_total r2
    /\ TelemetryData.odometer_trip r1 <= TelemetryData.odometer_trip r2
    /\ (TelemetryData.fuel_used_gps r1 <= TelemetryData.fuel_used_gps r2)%Q.
Proof.
  eexists. eexists. eexists. eexists.
  split; [vm_compute; reflexivity|].
  split; [vm_compute; reflexivity|].
  eapply (@counters_non_decreasing demo_world).
  - vm_compute. reflexivity.
  - apply later_now.
  - vm_compute. reflexivity.
Defined.

(** C5: a speed rise of more than 5 gives event 1 with g-value
    min(255, 15 + 2*delta), a drop of more than 5 gives event 2 with g-value
    min(255, 20 + 2*|delta|); from 50 to 60 that is (1, 35) and from 80 to
    65 it is (2, 50). *)
Theorem driving_event_derivation (prev_speed speed : Z) (w : world) :
  let delta := speed - prev_speed in
  (delta > 5 ->
   _generate_event_data speed (Some prev_speed) w
   = ((Some 1, Z.min 255 (15 + 2 * delta)), w))
  /\ (delta < -5 ->
      _generate_event_data speed (Some prev_speed) w
      = ((Some 2, Z.min 255 (20 + 2 * Z.abs delta)), w))
  /\ fst (_generate_event_data 60 (Some 50) w) = (Some 1, 35)
  /\ fst (_generate_event_data 65 (Some 80) w) = (Some 2, 50).
Proof.
  cbv zeta. unfold _generate_event_data.
  split; [|split; [|split; reflexivity]].
  - intros Hd. destruct (Z.gtb_spec (speed - prev_speed) 5); [|lia].
    unfold ret. do 3 f_equal. lia.
  - intros Hd. destruct (Z.gtb_spec (speed - prev_speed) 5); [lia|].
    destruct (Z.ltb_spec (speed - prev_speed) (-5)); [|lia].
    unfold ret. do 3 f_equal. lia.
Qed.

Lemma driving_event_derivation_witness :
  fst (_generate_event_data 60 (Some 50) demo_world) = (Some 1, Z.min 255 (15 + 2 * 10))
  /\ fst (_generate_event_data 65 (Some 80) demo_world)
     = (Some 2, Z.min 255 (20 + 2 * 15)).
Proof.
  destruct (driving_event_derivation 50 60 demo_world) as (Hacc & _).
  destruct (driving_event_derivation 80 65 demo_world) as (_ & Hbrk & _).
  split.
  - rewrite Hacc; [reflexivity | lia].
  - rewrite Hbrk; [reflexivity | lia].
Defined.

(** C6, the code at the failing input: with the position of the class
    literal and no drift the tick emits "+4.60971-74.08175/", which has one
    integer digit of latitude and two of longitude, not the two and three of
    the documented "+04.60971-074.08175/". *)
Theorem gps_location_not_padded :
  spec_gps_format "+04.60971-074.08175/" = true
  /\ exists r w',
       generate_telemetry_data demo_world = (Ok r, w')
       /\ TelemetryData.gps_location r = "+4.60971-74.08175/"%string
       /\ spec_gps_format (TelemetryData.gps_location r) = false.
Proof.
  split; [reflexivity|].
  eexists. eexists. split; [vm_compute; reflexivity|].
  split; reflexivity.
Qed.

(** A coordinate in [0, 9.99999] is printed with one integer digit. *)
Lemma format_5f_one_digit (x : Q) :
  (0 <= x)%Q -> (x <= 9.99999)%Q ->
  exists d rest,
    format_5f x = String d (String "." rest) /\ is_digit d = true.
Proof.
  intros H0 H9. unfold format_5f.
  assert (Hneg : Qltb x 0 = false).
  { unfold Qltb. apply negb_false_iff, Qle_bool_iff, H0. }
  rewrite Hneg.
  assert (Hn : 0 <= round_half_even (x * 100000) <= 999999).
  { split.
    - rewrite <- (round_half_even_Z 0). apply round_half_even_mono.
      change (inject_Z 0) with 0%Q. lra.
    - rewrite <- (round_half_even_Z 999999). apply round_half_even_mono.
      change (inject_Z 999999) with 999999%Q. lra. }
  rewrite Z.abs_eq by lia.
  set (n := round_half_even (x * 100000)) in *.
  assert (Hd : 0 <= n / 100000 <= 9).
  { assert (n / 100000 < 10) by (apply Z.div_lt_upper_bound; lia).
    split; [apply Z.div_pos; lia | lia]. }
  assert (Hcases : n / 100000 = 0 \/ n / 100000 = 1 \/ n / 100000 = 2
                   \/ n / 100000 = 3 \/ n / 100000 = 4 \/ n / 100000 = 5
                   \/ n / 100000 = 6 \/ n / 100000 = 7 \/ n / 100000 = 8
                   \/ n / 100000 = 9) by lia.
  repeat destruct Hcases as [E | Hcases]; try rename Hcases into E;
    rewrite E; eexists; eexists; split; reflexivity.
Qed.

(** While the latitude stays in [0.001, 9.99], the GPS string a tick emits
    has a single integer digit of latitude and is not of the documented
    form. *)
Lemma gps_location_unpadded (w w' : world) (r : TelemetryData.t) :
  (0.001 <= State.lat (base w))%Q -> (State.lat (base w) <= 9.99)%Q ->
  generate_telemetry_data w = (Ok r, w') ->
  spec_gps_format (TelemetryData.gps_location r) = false.
Proof.
  intros Hlo Hhi E. apply tick_record in E.
  rewrite (tp_gps E). destruct (tp_lat_step E) as (dlat & [Hd1 Hd2] & ->).
  destruct (@format_5f_one_digit (State.lat (base w) + dlat)) as (d & rest & -> & Hd);
    [lra | lra |].
  unfold spec_gps_format.
  cbn [matches app repeat append pat_ok]. rewrite Hd. reflexivity.
Qed.

(** Every first tick of a generator constructed on the class literal emits
    a GPS string that is not of the documented form. *)
Lemma gps_location_unpadded_first_tick settings (g : rng) (r : TelemetryData.t) w' :
  generate_telemetry_data (snd (__init__ settings (mk_world _base_state g)))
  = (Ok r, w') ->
  spec_gps_format (TelemetryData.gps_location r) = false.
Proof.
  pose proof (init_spec settings (mk_world _base_state g)) as Hinit.
  unfold wp in Hinit. destruct Hinit as (i & m & s & _ & _ & _ & _ & Hb).
  apply gps_location_unpadded; rewrite Hb; simpl; discriminate.
Qed.

(** The sign of the latitude is the literal "+" and the longitude gets a
    sign only when negative. *)
Lemma gps_location_signs :
  fst (_generate_gps_coordinate
         (mk_world (State.set_lat (-4.5) (State.set_lon 74.25 _base_state))
                   (replay [4503599627370496; 4503599627370496]%N)))
  = "+-4.5000074.25000/"%string.
Proof. vm_compute. reflexivity. Qed.





(** C9: every record a tick produces carries an event_g_value, and it lies
    in [10,255]; when event_type is null the value lies in [10,40]. *)
Theorem event_g_value_always_present
        (w w' : world) (r : TelemetryData.t) :
  generate_telemetry_data w = (Ok r, w') ->
  exists g, TelemetryData.event_g_value r = Some g
    /\ 10 <= g <= 255
    /\ (TelemetryData.event_type r = None -> 10 <= g <= 40).
Proof.
  intros E. apply tick_record in E.
  destruct (tp_event E) as (g & Hg & Hev). exists g. split; [exact Hg|].
  unfold event_spec in Hev. cbn [fst snd] in Hev.
  destruct Hev as [(Hd & Ht & ->)|[(Hd & Ht & ->)|(Hd & Ht & Hgv)]].
  - split; [lia|]. rewrite Ht. discriminate.
  - split; [lia|]. rewrite Ht. discriminate.
  - split; [lia|]. intros _. exact Hgv.
Qed.

Lemma event_g_value_always_present_witness :
  let r := fst (telemetry_kwargs fault_world) in
  generate_telemetry_data fault_world
  = (Ok r, snd (generate_telemetry_data fault_world))
  /\ TelemetryData.event_type r = None
  /\ exists g, TelemetryData.event_g_value r = Some g /\ 10 <= g <= 40.
Proof.
  assert (E : generate_telemetry_data fault_world
              = (Ok (fst (telemetry_kwargs fault_world)),
                 snd (generate_telemetry_data fault_world)))
    by (vm_compute; reflexivity).
  split; [exact E|]. split; [vm_compute; reflexivity|].
  destruct (@event_g_value_always_present fault_world _ _ E) as (g & Hg & _ & Hnone).
  exists g. split; [exact Hg|]. apply Hnone. vm_compute. reflexivity.
Defined.

Lemma in_check f name ok :
  In f (TelemetryData.check name ok) -> f = name /\ ok = false.
Proof.
  unfold TelemetryData.check. destruct ok; simpl; intuition.
Qed.

(** C10: in every tick the engine load is drawn from [30,70] and the
    instantaneous consumption is at least 0.2 when the vehicle is not moving
    and at least 9.0 when it is, hence positive; its field constraint is
    never among those that fail, whether the constructor returns or raises;
    and each increment of the cumulative fuel-used value is positive. *)
Theorem instant_consumption_positive (w : world) :
  let a := fst (telemetry_kwargs w) in
  let w' := snd (telemetry_kwargs w) in
  30 <= TelemetryData.engine_load a <= 70
  /\ (TelemetryData.movement_status a = 0 ->
      (0.2 <= TelemetryData.instant_consumption a)%Q)
  /\ (TelemetryData.movement_status a <> 0 ->
      (9.0 <= TelemetryData.instant_consumption a)%Q)
  /\ (0 < TelemetryData.instant_consumption a)%Q
  /\ ~ In "instant_consumption"%string (TelemetryData.errors a)
  /\ (TelemetryData.movement_status a = 1 ->
      State.fuel_used_total (base w')
      = Some (State.get_fuel_used_total 150.0 (base w)
              + TelemetryData.instant_consumption a / 7200)%Q
      /\ (0 < TelemetryData.instant_consumption a / 7200)%Q)
  /\ (forall r, fst (generate_telemetry_data w) = Ok r -> r = a)
  /\ (forall fields,
        fst (generate_telemetry_data w) = Raise (ValidationError fields) ->
        ~ In "instant_consumption"%string fields).
Proof.
  cbv zeta. pose proof (telemetry_kwargs_spec w) as Hp. unfold wp in Hp.
  set (a := fst (telemetry_kwargs w)) in *.
  set (w' := snd (telemetry_kwargs w)) in *.
  pose proof (tp_consumption_idle Hp) as Hidle.
  pose proof (tp_consumption_moving Hp) as Hmov.
  assert (Hpos : (0.2 <= TelemetryData.instant_consumption a)%Q).
  { destruct (Z.eq_dec (TelemetryData.movement_status a) 0) as [E|NE].
    - apply Hidle, E.
    - destruct (Hmov NE). lra. }
  assert (Herr : ~ In "instant_consumption"%string (TelemetryData.errors a)).
  { unfold TelemetryData.errors. repeat rewrite in_app_iff.
    intros H.
    repeat match type of H with
           | _ \/ _ => destruct H as [H|H]
           end;
      apply in_check in H; destruct H as [Hn Hr]; try discriminate Hn.
    unfold TelemetryData.in_rangeQ in Hr.
    apply andb_false_iff in Hr. destruct Hr as [Hr|Hr].
    - assert (Hle : Qle_bool 0 (TelemetryData.instant_consumption a) = true)
        by (apply Qle_bool_iff; lra).
      congruence.
    - assert (Hle : Qle_bool (TelemetryData.instant_consumption a) 32767 = true).
      { apply Qle_bool_iff.
        destruct (Z.eq_dec (TelemetryData.movement_status a) 0) as [E|NE].
        - destruct (Hidle E). lra.
        - destruct (Hmov NE). lra. }
      congruence. }
  assert (Hrun : fst (generate_telemetry_data w) = TelemetryData.new a).
  { unfold generate_telemetry_data, bind, ret. subst a.
    destruct (telemetry_kwargs w) as [a0 w0]. reflexivity. }
  split; [apply (tp_engine_load Hp)|].
  split; [intros E; apply Hidle, E|].
  split; [intros NE; apply Hmov, NE|].
  split; [lra|].
  split; [exact Herr|].
  split.
  { intros E1. pose proof (tp_fuel_used_step Hp) as Hf.
    rewrite E1 in Hf. simpl in Hf. split; [exact Hf|].
    unfold Qdiv. change (/ 7200)%Q with (1 # 7200)%Q. lra. }
  split.
  - intros r Hr. rewrite Hrun in Hr. apply new_ok in Hr. apply Hr.
  - intros fields Hr. rewrite Hrun in Hr. unfold TelemetryData.new in Hr.
    destruct (TelemetryData.errors a) as [|f l]; [discriminate|].
    injection Hr as <-. exact Herr.
Qed.

Lemma instant_consumption_positive_witness :
  let a := fst (telemetry_kwargs demo_world) in
  TelemetryData.movement_status a = 1
  /\ (9.0 <= TelemetryData.instant_consumption a)%Q
  /\ (0 < TelemetryData.instant_consumption a / 7200)%Q.
Proof.
  destruct (instant_consumption_positive demo_world)
    as (_ & _ & Hmov & _ & _ & Hinc & _ & _).
  split; [vm_compute; reflexivity|]. split.
  - apply Hmov. vm_compute. discriminate.
  - apply Hinc. vm_compute. reflexivity.
Defined.

(** * Further properties: identifiers *)

Lemma py_str_digit (d : Z) :
  0 <= d <= 9 ->
  exists c, py_str d = String c EmptyString /\ is_digit c = true.
Proof.
  intros Hd.
  assert (Hcases : d = 0 \/ d = 1 \/ d = 2 \/ d = 3 \/ d = 4 \/ d = 5
                   \/ d = 6 \/ d = 7 \/ d = 8 \/ d = 9) by lia.
  repeat destruct Hcases as [E | Hcases]; try rename Hcases into E;
    rewrite E; eexists; split; reflexivity.
Qed.

Lemma wp_random_digits_valid n (P : string -> world -> Prop) w :
  (forall s g, all_digits s = true -> String.length s = n ->
               P s (mk_world (base w) g)) ->
  wp (random_digits n) P w.
Proof.
  revert P w. induction n as [|n IH]; intros P w H; simpl.
  - apply wp_ret. destruct w. apply H; reflexivity.
  - apply wp_bind, wp_randint; [lia|]. intros d g Hd.
    apply wp_bind, IH. intros s g' Hs Hlen. apply wp_ret.
    destruct (py_str_digit Hd) as (c & -> & Hc).
    apply H; simpl; [rewrite Hc; exact Hs | f_equal; exact Hlen].
Qed.

Lemma all_digits_isdigit s n :
  all_digits s = true -> String.length s = S n -> isdigit s = true.
Proof. destruct s; simpl; [discriminate | auto]. Qed.


(** X1: a synthesized identifier is always fifteen decimal digits, and
    drawing it leaves the vehicle state alone. *)
Theorem generate_random_imei_valid (w : world) :
  valid_imei (fst (generate_random_imei w)) = true
  /\ base (snd (generate_random_imei w)) = base w.
Proof.
  unfold generate_random_imei.
  apply (@wp_random_digits_valid 15
           (fun s w' => valid_imei s = true /\ base w' = base w) w).
  intros s g Hs Hlen. split; [|reflexivity].
  unfold valid_imei. rewrite (all_digits_isdigit _ Hs Hlen), Hlen. reflexivity.
Qed.

Lemma digit_not_space c : is_digit c = true -> is_space c = false.
Proof.
  destruct c as [[] [] [] [] [] [] [] []]; vm_compute; congruence.
Qed.

Lemma digit_not_comma c : is_digit c = true -> Ascii.eqb c "," = false.
Proof.
  destruct c as [[] [] [] [] [] [] [] []]; vm_compute; congruence.
Qed.

Lemma lstrip_digits s : all_digits s = true -> lstrip s = s.
Proof.
  destruct s as [|c s]; simpl; [reflexivity|].
  intros H. apply andb_true_iff in H. destruct H as [Hc _].
  rewrite (digit_not_space _ Hc). reflexivity.
Qed.

Lemma rstrip_digits s : all_digits s = true -> rstrip s = s.
Proof.
  induction s as [|c s IH]; simpl; [reflexivity|].
  intros H. apply andb_true_iff in H. destruct H as [Hc Hs].
  rewrite (IH Hs). destruct s; [|reflexivity].
  rewrite (digit_not_space _ Hc). reflexivity.
Qed.

Lemma strip_digits s : all_digits s = true -> strip s = s.
Proof.
  intros H. unfold strip. rewrite (lstrip_digits _ H). apply rstrip_digits, H.
Qed.

Lemma valid_imei_digits s : valid_imei s = true -> all_digits s = true.
Proof.
  unfold valid_imei, isdigit. intros H. apply andb_true_iff in H.
  destruct s; [destruct H; discriminate | apply H].
Qed.

Lemma valid_imei_truthy s : valid_imei s = true -> truthy s = true.
Proof. destruct s; [discriminate | reflexivity]. Qed.

(** X2: the validator of the single identifier returns the stripped value
    when that is fifteen digits and raises otherwise; what it returns is
    valid and is returned unchanged when validated again. *)
Theorem validate_single_imei_normalizes (v : string) :
  (valid_imei (strip v) = true ->
   Settings.validate_single_imei (Some v) = Ok (Some (strip v))
   /\ Settings.validate_single_imei (Some (strip v)) = Ok (Some (strip v)))
  /\ (valid_imei (strip v) = false ->
      Settings.validate_single_imei (Some v) = Raise (ValueError (strip v))).
Proof.
  assert (Hgen : forall u,
    Settings.validate_single_imei (Some u)
    = if valid_imei (strip u) then Ok (Some (strip u))
      else Raise (ValueError (strip u))).
  { intros u. unfold Settings.validate_single_imei, valid_imei.
    destruct (isdigit (strip u)); destruct (String.length (strip u) =? 15)%nat;
      reflexivity. }
  split; intros H.
  - split.
    + rewrite Hgen, H. reflexivity.
    + rewrite Hgen. rewrite (strip_digits _ (valid_imei_digits _ H)), H.
      reflexivity.
  - rewrite Hgen, H. reflexivity.
Qed.

Lemma validate_single_imei_normalizes_witness :
  Settings.validate_single_imei (Some " 352099001761481 "%string)
  = Ok (Some "352099001761481"%string)
  /\ Settings.validate_single_imei (Some "35209900176148x"%string)
     = Raise (ValueError "35209900176148x").
Proof.
  destruct (validate_single_imei_normalizes " 352099001761481 ") as [Hok _].
  destruct (validate_single_imei_normalizes "35209900176148x") as [_ Hbad].
  split.
  - apply Hok. reflexivity.
  - apply Hbad. reflexivity.
Defined.

Lemma valid_entries_valid raw :
  Forall (fun x => valid_imei x = true) (Settings.valid_entries raw).
Proof.
  induction raw as [|x raw IH]; simpl; [constructor|].
  destruct (truthy (strip x) && isdigit (strip x)
            && (String.length (strip x) =? 15)%nat) eqn:E; [|exact IH].
  constructor; [|exact IH].
  apply andb_true_iff in E. destruct E as [E1 E2].
  apply andb_true_iff in E1. destruct E1 as [_ E1].
  unfold valid_imei. rewrite E1, E2. reflexivity.
Qed.

Lemma settings_new_single a b c s :
  Settings.new a b c = Ok s ->
  Settings.DEVICE_IMEI_LIST s = b /\ Settings.ALLOW_GENERATE_IMEI s = c
  /\ match Settings.DEVICE_IMEI s with
     | Some v => valid_imei v = true
     | None => a = None
     end.
Proof.
  unfold Settings.new, Settings.validate_single_imei.
  destruct a as [v|]; [|intros [= <-]; simpl; auto].
  destruct (isdigit (strip v)) eqn:E1; [|discriminate].
  destruct (String.length (strip v) =? 15)%nat eqn:E2; [|discriminate].
  simpl. intros [= <-]. simpl. unfold valid_imei. rewrite E1, E2. auto.
Qed.

Lemma imei_list_valid_entries (s : Settings.t) :
  match Settings.DEVICE_IMEI s with
  | Some v => valid_imei v = true
  | None => True
  end ->
  Forall (fun x => valid_imei x = true) (Settings.imei_list s).
Proof.
  intros Hs. unfold Settings.imei_list.
  assert (Hhead : Forall (fun x => valid_imei x = true)
            match Settings.DEVICE_IMEI s with
            | Some v => if truthy v then [v] else []
            | None => []
            end).
  { destruct (Settings.DEVICE_IMEI s) as [v|]; [|constructor].
    destruct (truthy v); repeat constructor. exact Hs. }
  destruct (Settings.DEVICE_IMEI_LIST s) as [l|]; [|exact Hhead].
  destruct (truthy l); [|exact Hhead].
  apply Forall_app. split; [exact Hhead | apply valid_entries_valid].
Qed.

(** X3: every identifier in the merged list of a configuration that passed
    construction is fifteen decimal digits. *)
Theorem imei_list_all_valid (a b : option string) (c : bool) (s : Settings.t) :
  Settings.new a b c = Ok s ->
  Forall (fun x => valid_imei x = true) (Settings.imei_list s).
Proof.
  intros H. apply settings_new_single in H. destruct H as (_ & _ & Hs).
  apply imei_list_valid_entries.
  destruct (Settings.DEVICE_IMEI s); [exact Hs | exact I].
Qed.

Lemma imei_list_all_valid_witness :
  exists s,
    Settings.new (Some " 352099001761481"%string)
      (Some "111111111111111, 12345,,222222222222222"%string) false = Ok s
    /\ Forall (fun x => valid_imei x = true) (Settings.imei_list s)
    /\ Settings.imei_list s
       = ["352099001761481"; "111111111111111"; "222222222222222"]%string.
Proof.
  eexists. split; [reflexivity|]. split; [|reflexivity].
  apply (@imei_list_all_valid (Some " 352099001761481"%string)
           (Some "111111111111111, 12345,,222222222222222"%string) false).
  reflexivity.
Defined.

Lemma split_comma_free x : comma_free x = true -> split "," x = [x].
Proof.
  induction x as [|c x IH]; simpl; [reflexivity|].
  intros H. apply andb_true_iff in H. destruct H as [Hc Hx].
  apply negb_true_iff in Hc. rewrite Hc, (IH Hx). reflexivity.
Qed.

Lemma split_app_comma x rest :
  comma_free x = true ->
  split "," (x ++ String "," rest) = x :: split "," rest.
Proof.
  induction x as [|c x IH]; simpl; [reflexivity|].
  intros H. apply andb_true_iff in H. destruct H as [Hc Hx].
  apply negb_true_iff in Hc. rewrite Hc, (IH Hx). reflexivity.
Qed.

(** Splitting a comma-joined list of comma-free entries gives the entries
    back. *)
Lemma split_concat (l : list string) :
  l <> [] -> Forall (fun x => comma_free x = true) l ->
  split "," (String.concat "," l) = l.
Proof.
  induction l as [|x l IH]; [congruence|]. intros _ H.
  inversion H as [|? ? Hx Hl]; subst.
  destruct l as [|y l].
  - simpl. apply split_comma_free, Hx.
  - change (String.concat "," (x :: y :: l))
      with (x ++ String "," (String.concat "," (y :: l)))%string.
    rewrite (split_app_comma _ _ Hx). f_equal. apply IH; [discriminate | exact Hl].
Qed.

Lemma digits_comma_free s : all_digits s = true -> comma_free s = true.
Proof.
  induction s as [|c s IH]; simpl; [reflexivity|].
  intros H. apply andb_true_iff in H. destruct H as [Hc Hs].
  rewrite (digit_not_comma _ Hc), (IH Hs). reflexivity.
Qed.

Lemma valid_entries_of_valid l :
  Forall (fun x => valid_imei x = true) l -> Settings.valid_entries l = l.
Proof.
  induction 1 as [|x l Hx _ IH]; simpl; [reflexivity|].
  rewrite (strip_digits _ (valid_imei_digits _ Hx)).
  rewrite (valid_imei_truthy _ Hx).
  unfold valid_imei in Hx. apply andb_true_iff in Hx. destruct Hx as [-> ->].
  simpl. rewrite IH. reflexivity.
Qed.

Lemma concat_truthy x l :
  truthy x = true -> truthy (String.concat "," (x :: l)) = true.
Proof. destruct x; [discriminate|]. destruct l; reflexivity. Qed.

(** X4: configuring valid identifiers as a single value and as a
    comma-joined list yields exactly them as the merged list: the single
    one first, then the list entries in their order, duplicates kept. *)
Theorem imei_list_round_trip
        (single : option string) (l : list string) (allow : bool) :
  match single with Some a => valid_imei a = true | None => True end ->
  Forall (fun x => valid_imei x = true) l ->
  exists s,
    Settings.new single (Some (String.concat "," l)) allow = Ok s
    /\ Settings.imei_list s
       = match single with Some a => [a] | None => [] end ++ l.
Proof.
  intros Hsingle Hl.
  assert (Hlist : forall head,
    (if truthy (String.concat "," l)
     then head ++ Settings.valid_entries (split "," (String.concat "," l))
     else head) = head ++ l).
  { intros head. destruct l as [|x l]; [simpl; rewrite app_nil_r; reflexivity|].
    inversion Hl as [|? ? Hx _]; subst.
    rewrite (concat_truthy x l (valid_imei_truthy _ Hx)).
    rewrite split_concat.
    - rewrite (valid_entries_of_valid Hl). reflexivity.
    - discriminate.
    - eapply Forall_impl; [|exact Hl].
      intros y Hy. apply digits_comma_free, valid_imei_digits, Hy. }
  destruct single as [a|].
  - exists (Settings.mk (Some a) (Some (String.concat "," l)) allow). split.
    + unfold Settings.new, Settings.validate_single_imei.
      rewrite (strip_digits _ (valid_imei_digits _ Hsingle)).
      unfold valid_imei in Hsingle. apply andb_true_iff in Hsingle.
      destruct Hsingle as [-> ->]. reflexivity.
    + unfold Settings.imei_list.
      cbn [Settings.DEVICE_IMEI Settings.DEVICE_IMEI_LIST].
      rewrite (valid_imei_truthy _ Hsingle). apply Hlist.
  - exists (Settings.mk None (Some (String.concat "," l)) allow). split.
    + reflexivity.
    + unfold Settings.imei_list.
      cbn [Settings.DEVICE_IMEI Settings.DEVICE_IMEI_LIST]. apply Hlist.
Qed.

Lemma imei_list_round_trip_witness :
  exists s,
    Settings.new (Some "352099001761481"%string)
      (Some "111111111111111,352099001761481"%string) false = Ok s
    /\ Settings.imei_list s
       = ["352099001761481"; "111111111111111"; "352099001761481"]%string.
Proof.
  destruct (@imei_list_round_trip (Some "352099001761481"%string)
              ["111111111111111"; "352099001761481"]%string false)
    as (s & Hs & Hl).
  - reflexivity.
  - repeat constructor.
  - exists s. split; [exact Hs | exact Hl].
Defined.







Lemma current_imeis_closed settings (l : list string) (sel : string) k :
  (1 < List.length l)%nat ->
  forall i w,
    current_imeis k settings (mk i l sel) w
    = ((map (fun j => nth ((i + j) mod List.length l) l EmptyString) (seq 1 k),
        mk (match k with O => i | _ => (i + k) mod List.length l end) l sel),
       w).
Proof.
  intros Hlen. induction k as [|k IH]; intros i w; [reflexivity|].
  cbn [current_imeis]. unfold bind.
  rewrite (get_current_imei_rotates settings (mk i l sel) w Hlen).
  cbn [fst snd _imei_index _imeis _selected_imei].
  rewrite IH. unfold ret. cbn [fst snd].
  f_equal. f_equal.
  - cbn [seq map]. f_equal.
    rewrite <- (seq_shift k 1), map_map. apply map_ext. intros j.
    f_equal. rewrite Nat.Div0.add_mod_idemp_l. f_equal. lia.
  - f_equal. destruct k; [reflexivity|].
    rewrite Nat.Div0.add_mod_idemp_l. f_equal. lia.
Qed.

(** X7: with n > 1 identifiers and the cursor at i < n, the k-th successive
    call returns entry (i + k) mod n; after n calls the cursor is back at i
    and every identifier has been returned. *)
Theorem round_robin_period
        (settings : Settings.t) (l : list string) (sel : string)
        (i : nat) (w : world) :
  (1 < List.length l)%nat -> (i < List.length l)%nat ->
  let n := List.length l in
  (forall k,
      fst (fst (current_imeis k settings (mk i l sel) w))
      = map (fun j => nth ((i + j) mod n) l EmptyString) (seq 1 k))
  /\ snd (fst (current_imeis n settings (mk i l sel) w)) = mk i l sel
  /\ (forall x, In x l ->
                In x (fst (fst (current_imeis n settings (mk i l sel) w)))).
Proof.
  intros Hlen Hi n. split; [|split].
  - intros k. rewrite current_imeis_closed by exact Hlen. reflexivity.
  - rewrite current_imeis_closed by exact Hlen. cbn [fst snd]. fold n.
    destruct n as [|n'] eqn:En; [lia|]. f_equal.
    rewrite <- En. replace (i + n)%nat with (i + 1 * n)%nat by lia.
    rewrite Nat.Div0.mod_add. apply Nat.mod_small. lia.
  - intros x Hx. rewrite current_imeis_closed by exact Hlen. cbn [fst].
    apply (In_nth _ _ EmptyString) in Hx. destruct Hx as (p & Hp & <-).
    fold n in Hp |- *. apply in_map_iff.
    destruct (Nat.leb_spec p i) as [Hle|Hgt].
    + exists (p + n - i)%nat. split.
      * f_equal. replace (i + (p + n - i))%nat with (p + 1 * n)%nat by lia.
        rewrite Nat.Div0.mod_add. apply Nat.mod_small. exact Hp.
      * apply in_seq. lia.
    + exists (p - i)%nat. split.
      * f_equal. replace (i + (p - i))%nat with p by lia.
        apply Nat.mod_small. exact Hp.
      * apply in_seq. lia.
Qed.

Lemma round_robin_period_witness :
  fst (fst (current_imeis 4 three_settings
              (mk 0 ["111111111111111"; "222222222222222";
                     "333333333333333"]%string
                  "111111111111111"%string) demo_world))
  = ["222222222222222"; "333333333333333"; "111111111111111";
     "222222222222222"]%string.
Proof.
  destruct (@round_robin_period three_settings
              ["111111111111111"; "222222222222222"; "333333333333333"]%string
              "111111111111111"%string 0%nat demo_world) as (Hk & _ & _).
  - simpl. lia.
  - simpl. lia.
  - rewrite Hk. reflexivity.
Defined.

(** * Further properties: the fields of a tick *)

Lemma wp_generate_rpm_band ignition speed (P : Z -> world -> Prop) w :
  (forall v g, rpm_band ignition speed v -> P v (mk_world (base w) g)) ->
  wp (_generate_rpm ignition speed) P w.
Proof.
  intros H. unfold _generate_rpm.
  unfold rpm_band in H.
  destruct (ignition =? 0).
  { apply wp_ret. destruct w; apply H; reflexivity. }
  destruct (speed =? 0); [|destruct (speed <? 40); [|destruct (speed <? 80)]];
    (apply wp_randint; [lia|]); intros v g Hv; apply H; exact Hv.
Qed.

Lemma wp_generate_engine_temp_band ignition engine_load
      (P : Z -> world -> Prop) w :
  (forall v g, engine_temp_band ignition engine_load v ->
               P v (mk_world (base w) g)) ->
  wp (_generate_engine_temp ignition engine_load) P w.
Proof.
  intros H. unfold _generate_engine_temp. unfold engine_temp_band in H.
  destruct (ignition =? 0); [|destruct (engine_load <? 30)];
    (apply wp_randint; [lia|]); intros v g Hv; apply H; lia.
Qed.

Lemma list_set_out {A} (l : list A) j v :
  (List.length l <= j)%nat -> random.list_set l j v = l.
Proof.
  revert j. induction l as [|x l IH]; intros [|j] H; simpl in *;
    try reflexivity; try lia.
  f_equal. apply IH. lia.
Qed.

Lemma firstn_list_set {A} (l : list A) m j v :
  firstn m (random.list_set l j v) = random.list_set (firstn m l) j v.
Proof.
  revert m j. induction l as [|x l IH]; intros [|m] [|j]; simpl;
    try reflexivity.
  f_equal. apply IH.
Qed.

Lemma perm_list_set {A} (d : A) (l : list A) j v :
  (j < List.length l)%nat ->
  Permutation (v :: l) (nth j l d :: random.list_set l j v).
Proof.
  revert j. induction l as [|x l IH]; intros [|j] H; simpl in *; try lia.
  - apply perm_swap.
  - eapply perm_trans; [apply perm_swap|].
    eapply perm_trans; [apply perm_skip, (IH j); lia|].
    apply perm_swap.
Qed.

Lemma firstn_snoc {A} (d : A) (l : list A) m :
  (m < List.length l)%nat -> firstn (S m) l = firstn m l ++ [nth m l d].
Proof.
  revert m. induction l as [|x l IH]; intros [|m] H; simpl in *;
    try lia; try reflexivity.
  f_equal. apply IH. lia.
Qed.

Lemma nth_firstn_lt {A} (d : A) (l : list A) m j :
  (j < m)%nat -> nth j (firstn m l) d = nth j l d.
Proof.
  revert m j. induction l as [|x l IH]; intros [|m] [|j] H; simpl;
    try lia; try reflexivity.
  apply IH. lia.
Qed.

(** One step of the selection loop takes one entry out of the active prefix
    of the pool. *)
Lemma sample_step_perm {A} (d : A) (pool : list A) m j :
  (m < List.length pool)%nat -> (j <= m)%nat ->
  Permutation (firstn (S m) pool)
    (nth j pool d
       :: firstn m (random.list_set pool j (nth m pool d))).
Proof.
  intros Hm Hj. rewrite (firstn_snoc d _ Hm), firstn_list_set.
  eapply perm_trans; [apply Permutation_app_comm|]. simpl.
  destruct (Nat.eq_dec j m) as [->|Hne].
  - rewrite list_set_out; [reflexivity|].
    rewrite length_firstn. lia.
  - rewrite <- (nth_firstn_lt d pool (m := m) (j := j)) by lia.
    apply perm_list_set. rewrite length_firstn. lia.
Qed.

Lemma wp_sample_loop_perm {A} (d : A) n todo :
  forall i pool (P : list A -> world -> Prop) w,
    List.length pool = n -> (i + todo <= n)%nat ->
    (forall l g,
        (exists rest, Permutation (firstn (n - i) pool) (l ++ rest)) ->
        P l (mk_world (base w) g)) ->
    wp (random.sample_loop d n pool i todo) P w.
Proof.
  induction todo as [|todo IH]; intros i pool P w Hlen Hi H; simpl.
  - apply wp_ret. destruct w. apply H. exists (firstn (n - i) pool).
    reflexivity.
  - apply wp_bind, wp_randbelow; [lia|]. intros j g Hj.
    apply wp_bind. apply IH.
    + rewrite list_set_length. exact Hlen.
    + lia.
    + intros l g' (rest & Hperm). apply wp_ret. apply H.
      exists rest. simpl.
      replace (n - i)%nat with (S (n - i - 1)) by lia.
      eapply perm_trans.
      * apply (sample_step_perm d pool (m := n - i - 1) (j := Z.to_nat j)); lia.
      * apply perm_skip.
        replace (n - S i)%nat with (n - i - 1)%nat in Hperm by lia.
        exact Hperm.
Qed.

Lemma count_occ_perm_app (l rest population : list string) :
  Permutation population (l ++ rest) -> sub_multiset l population.
Proof.
  intros Hperm x.
  rewrite (Permutation_count_occ string_dec population (l ++ rest)) in Hperm.
  rewrite (Hperm x), count_occ_app. lia.
Qed.

Lemma wp_generate_obd_faults_multiset (P : list string -> world -> Prop) w :
  (forall l g, sub_multiset l _obd_faults_pool -> P l (mk_world (base w) g)) ->
  wp _generate_obd_faults P w.
Proof.
  intros H. unfold _generate_obd_faults.
  apply wp_bind, wp_random. intros u g _.
  destruct (Qltb u 0.15).
  - apply wp_bind, wp_randint; [lia|]. intros k g' Hk.
    unfold random.sample. apply wp_sample_loop_perm.
    + reflexivity.
    + simpl. lia.
    + intros l g'' (rest & Hperm). apply H.
      apply count_occ_perm_app with (rest := rest). exact Hperm.
  - apply wp_ret. apply H. intros x. apply Nat.le_0_l.
Qed.

Ltac wp_step2 :=
  lazymatch goal with
  | |- wp (bind _ _) _ _ => apply wp_bind
  | |- wp (ret _) _ _ => apply wp_ret
  | |- wp (read _) _ _ => apply wp_read
  | |- wp (modify _) _ _ => apply wp_modify
  | |- wp random.random _ _ => apply wp_random; intros ? ? _
  | |- wp (random.randint _ _) _ _ => apply wp_randint; [lia | intros ? ? ?]
  | |- wp (random.uniform _ _) _ _ => apply wp_uniform; [lra | intros ? ? ?]
  | |- wp (_generate_rpm _ _) _ _ => apply wp_generate_rpm_band; intros ? ? ?
  | |- wp (_generate_engine_temp _ _) _ _ =>
      apply wp_generate_engine_temp_band; intros ? ? ?
  | |- wp (_generate_fuel_consumption _ _ _) _ _ =>
      apply wp_generate_fuel_consumption; [lia | lia | intros ? ? _ _]
  | |- wp _generate_gps_coordinate _ _ =>
      apply wp_generate_gps_coordinate; intros ? ? ? _ _
  | |- wp _generate_obd_faults _ _ =>
      apply wp_generate_obd_faults_multiset; intros ? ? ?
  | |- wp (_generate_event_data _ _) _ _ =>
      apply wp_generate_event_data; intros [? ?] ? _
  | |- wp (if ?c then _ else _) _ _ => split_cond c
  end; state_goal.

Lemma telemetry_kwargs_coupling w : wp telemetry_kwargs (tick_coupling w) w.
Proof.
  destruct w as [[lat lon total trip fuel oil ign mot spd used] g].
  unfold telemetry_kwargs.
  repeat wp_step2.
  all: constructor; state_goal; record_goal;
    [ assumption
    | assumption
    | intros ?; first [reflexivity | exfalso; lia]
    | intros [?|?]; first [reflexivity | exfalso; lia]
    | intros ? ?;
      first [ eexists; split; [ | reflexivity]; eassumption | exfalso; lia ]
    | assumption ].
Qed.

Lemma tick_record_coupling w r w' :
  generate_telemetry_data w = (Ok r, w') -> tick_coupling w r w'.
Proof.
  unfold generate_telemetry_data, bind, ret. intros E.
  pose proof (telemetry_kwargs_coupling w) as H. unfold wp in H.
  destruct (telemetry_kwargs w) as [a w1]. simpl in H.
  injection E as E <-. apply new_ok in E. destruct E as [-> _]. exact H.
Qed.

(** X8: the engine temperature of a record is in [-60,40] when the ignition
    is off and in [90,100] when it is on: the engine load of a tick is never
    below 30, so the 70-80 range of a lightly loaded engine is never used. *)
Theorem engine_temp_by_ignition (w w' : world) (r : TelemetryData.t) :
  generate_telemetry_data w = (Ok r, w') ->
  (TelemetryData.ignition_status r = 0 ->
   -60 <= TelemetryData.engine_temp r <= 40)
  /\ (TelemetryData.ignition_status r <> 0 ->
      90 <= TelemetryData.engine_temp r <= 100).
Proof.
  intros E. pose proof (tick_record w E) as Hp.
  apply tick_record_coupling in E.
  pose proof (tc_engine_temp E) as Ht. pose proof (tp_engine_load Hp) as Hl.
  unfold engine_temp_band in Ht.
  destruct (Z.eqb_spec (TelemetryData.ignition_status r) 0) as [E0|NE].
  - split; [intros _; exact Ht | congruence].
  - destruct (Z.ltb_spec (TelemetryData.engine_load r) 30); [lia|].
    split; [congruence | intros _; exact Ht].
Qed.

Lemma engine_temp_by_ignition_witness :
  let r := fst (telemetry_kwargs demo_world) in
  TelemetryData.ignition_status r = 1 /\ TelemetryData.engine_temp r = 92
  /\ 90 <= TelemetryData.engine_temp r <= 100.
Proof.
  assert (E : generate_telemetry_data demo_world
              = (Ok (fst (telemetry_kwargs demo_world)),
                 snd (generate_telemetry_data demo_world)))
    by (vm_compute; reflexivity).
  destruct (@engine_temp_by_ignition demo_world _ _ E) as [_ Hon].
  split; [vm_compute; reflexivity|]. split; [vm_compute; reflexivity|].
  apply Hon. vm_compute. discriminate.
Defined.

(** X9: the engine speed of a record lies in the band of its ignition and
    speed (0 with the ignition off, 700-900 at rest, 1200-2500 below
    40 km/h, 2000-3500 below 80 km/h, 3500-6000 from there), and it is 0
    exactly when the ignition is off. *)
Theorem rpm_follows_speed (w w' : world) (r : TelemetryData.t) :
  generate_telemetry_data w = (Ok r, w') ->
  rpm_band (TelemetryData.ignition_status r) (TelemetryData.speed r)
           (TelemetryData.rpm r)
  /\ (TelemetryData.rpm r = 0 <-> TelemetryData.ignition_status r = 0).
Proof.
  intros E. apply tick_record_coupling in E.
  pose proof (tc_rpm E) as Hr. split; [exact Hr|].
  unfold rpm_band in Hr.
  destruct (Z.eqb_spec (TelemetryData.ignition_status r) 0) as [E0|NE];
    [tauto|].
  destruct (TelemetryData.speed r =? 0);
    [|destruct (TelemetryData.speed r <? 40);
      [|destruct (TelemetryData.speed r <? 80)]];
    split; intros; lia.
Qed.

Lemma rpm_follows_speed_witness :
  let r := fst (telemetry_kwargs demo_world) in
  TelemetryData.speed r = 58 /\ TelemetryData.rpm r = 2500
  /\ rpm_band (TelemetryData.ignition_status r) (TelemetryData.speed r)
              (TelemetryData.rpm r).
Proof.
  assert (E : generate_telemetry_data demo_world
              = (Ok (fst (telemetry_kwargs demo_world)),
                 snd (generate_telemetry_data demo_world)))
    by (vm_compute; reflexivity).
  destruct (@rpm_follows_speed demo_world _ _ E) as [Hband _].
  split; [vm_compute; reflexivity|]. split; [vm_compute; reflexivity|].
  exact Hband.
Defined.

(** X10: a record with the ignition off reports no movement, speed 0 and
    engine speed 0, and the tick leaves both odometers, the fuel level and
    the cumulative fuel used as they were; it still reports an
    instantaneous consumption between 0.2 and 0.8. *)
Theorem ignition_off_tick (w w' : world) (r : TelemetryData.t) :
  generate_telemetry_data w = (Ok r, w') ->
  TelemetryData.ignition_status r = 0 ->
  TelemetryData.movement_status r = 0
  /\ TelemetryData.speed r = 0
  /\ TelemetryData.rpm r = 0
  /\ (0.2 <= TelemetryData.instant_consumption r
      /\ TelemetryData.instant_consumption r <= 0.8)%Q
  /\ State.total_odo (base w') = State.total_odo (base w)
  /\ State.trip_odo (base w') = State.trip_odo (base w)
  /\ State.fuel_level (base w') = State.fuel_level (base w)
  /\ State.fuel_used_total (base w') = State.fuel_used_total (base w).
Proof.
  intros E Hoff. pose proof (tick_record w E) as Hp.
  apply tick_record_coupling in E.
  assert (Hign : State.ignition (base w') = 0)
    by (rewrite <- (tp_ignition Hp); exact Hoff).
  assert (Hmov : TelemetryData.movement_status r = 0)
    by (rewrite (tp_movement Hp), Hign; reflexivity).
  pose proof (tp_speed_step Hp) as Hs. unfold speed_step in Hs.
  rewrite Hign in Hs. simpl in Hs.
  pose proof (tc_rpm E) as Hr. unfold rpm_band in Hr. rewrite Hoff in Hr.
  simpl in Hr.
  pose proof (tp_total_odo_step Hp) as Ht.
  pose proof (tp_trip_odo_step Hp) as Htr.
  pose proof (tp_fuel_used_step Hp) as Hf.
  rewrite Hmov in Ht, Htr, Hf. simpl in Ht, Htr, Hf.
  repeat split; try assumption.
  - rewrite (tp_speed Hp). exact Hs.
  - apply (tp_consumption_idle Hp Hmov).
  - apply (tp_consumption_idle Hp Hmov).
  - apply (tc_fuel_level_kept E). left. lia.
Qed.

Lemma ignition_off_tick_witness :
  let r := fst (telemetry_kwargs fault_world) in
  TelemetryData.ignition_status r = 0
  /\ TelemetryData.rpm r = 0
  /\ (0.2 <= TelemetryData.instant_consumption r)%Q.
Proof.
  assert (E : generate_telemetry_data fault_world
              = (Ok (fst (telemetry_kwargs fault_world)),
                 snd (generate_telemetry_data fault_world)))
    by (vm_compute; reflexivity).
  assert (Hoff : TelemetryData.ignition_status
                   (fst (telemetry_kwargs fault_world)) = 0)
    by (vm_compute; reflexivity).
  destruct (@ignition_off_tick fault_world _ _ E Hoff)
    as (_ & _ & Hrpm & [Hc _] & _).
  split; [exact Hoff|]. split; [exact Hrpm | exact Hc].
Defined.

(** X11: from a reachable state, a record carries a braking event only when
    the tick has the ignition off (the speed dropped to 0 from more than 5,
    and the g-value is min(255, 20 + 2 * previous speed)), and an
    acceleration event only when the vehicle moves, with a g-value of 27,
    29 or 31. *)
Theorem event_type_by_transition (w w' : world) (r : TelemetryData.t) :
  reachable (base w) ->
  generate_telemetry_data w = (Ok r, w') ->
  (TelemetryData.event_type r = Some 2 ->
   TelemetryData.ignition_status r = 0
   /\ TelemetryData.speed r = 0
   /\ 5 < State.speed (base w)
   /\ TelemetryData.event_g_value r
      = Some (Z.min 255 (20 + 2 * State.speed (base w))))
  /\ (TelemetryData.event_type r = Some 1 ->
      TelemetryData.ignition_status r = 1
      /\ TelemetryData.movement_status r = 1
      /\ (TelemetryData.event_g_value r = Some 27
          \/ TelemetryData.event_g_value r = Some 29
          \/ TelemetryData.event_g_value r = Some 31))
  /\ (TelemetryData.ignition_status r = 0 -> 5 < State.speed (base w) ->
      TelemetryData.event_type r = Some 2).
Proof.
  intros Hreach E. pose proof (reachable_inv Hreach) as Hinv.
  pose proof (tick_inv w Hinv) as Hinv'. rewrite E in Hinv'. simpl in Hinv'.
  apply tick_record in E.
  destruct Hinv as [_ _ Hs _ _ _ _ _ _].
  destruct Hinv' as [Hi' Hm' Hs' Hs0' _ _ _ _ _].
  destruct (tp_event E) as (g & Hg & Hev).
  pose proof (tp_speed_step E) as Hstep. unfold speed_step in Hstep.
  pose proof (tp_movement E) as Hmov.
  rewrite (tp_ignition E), (tp_speed E), Hg.
  unfold event_spec in Hev. cbn [fst snd] in Hev.
  set (s := State.speed (base w)) in *.
  set (s' := State.speed (base w')) in *.
  assert (Hcases :
    (State.ignition (base w') = 0 /\ s' = 0)
    \/ (State.ignition (base w') = 1
        /\ TelemetryData.movement_status r = 0 /\ s - 5 <= s' <= s)
    \/ (State.ignition (base w') = 1
        /\ TelemetryData.movement_status r = 1 /\ s - 3 <= s' <= s + 8)).
  { destruct (Z.eqb_spec (State.ignition (base w')) 0) as [E0|NE].
    - left. auto.
    - right. assert (E1 : State.ignition (base w') = 1) by lia.
      rewrite E1 in Hmov. simpl in Hmov.
      destruct (Z.eqb_spec (TelemetryData.movement_status r) 0) as [M0|MN];
        destruct Hstep as (d & Hd & Hstep).
      + left. repeat split; auto; lia.
      + right. repeat split; auto; lia. }
  split; [|split].
  - intros Ht.
    destruct Hev as [(Hd & Ht' & _)|[(Hd & _ & Hgv)|(_ & [Ht'|Ht'] & _)]];
      try congruence.
    destruct Hcases as [[H0 Hz]|[(_ & _ & Hb)|(_ & _ & Hb)]]; try lia.
    repeat split; try assumption; try lia.
    f_equal. rewrite Hgv. f_equal. lia.
  - intros Ht.
    destruct Hev as [(Hd & _ & Hgv)|[(Hd & Ht' & _)|(_ & [Ht'|Ht'] & _)]];
      try congruence.
    destruct Hcases as [[H0 Hz]|[(_ & _ & Hb)|(H1 & M1 & Hb)]]; try lia.
    repeat split; try assumption.
    assert (Hd' : s' - s = 6 \/ s' - s = 7 \/ s' - s = 8) by lia.
    destruct Hd' as [D|[D|D]]; rewrite Hgv, D; auto.
  - intros H0 H5.
    destruct Hcases as [[_ Hz]|[(H1 & _)|(H1 & _)]]; try lia.
    destruct Hev as [(Hd & _)|[(_ & Ht' & _)|(Hd & _)]]; try lia.
    exact Ht'.
Qed.

Lemma event_type_by_transition_witness :
  let r := fst (telemetry_kwargs demo_world) in
  TelemetryData.event_type r = Some 1
  /\ TelemetryData.movement_status r = 1
  /\ (TelemetryData.event_g_value r = Some 27
      \/ TelemetryData.event_g_value r = Some 29
      \/ TelemetryData.event_g_value r = Some 31).
Proof.
  assert (E : generate_telemetry_data demo_world
              = (Ok (fst (telemetry_kwargs demo_world)),
                 snd (generate_telemetry_data demo_world)))
    by (vm_compute; reflexivity).
  assert (Ht : TelemetryData.event_type (fst (telemetry_kwargs demo_world))
               = Some 1) by (vm_compute; reflexivity).
  destruct (@event_type_by_transition demo_world _ _
              (reach_init demo_settings
                 (mk_world _base_state (replay demo_entropy)) eq_refl) E)
    as (_ & Hacc & _).
  destruct (Hacc Ht) as (_ & Hm & Hg).
  split; [exact Ht|]. split; [exact Hm | exact Hg].
Defined.

Lemma py_int_mono (x y : Q) :
  (0 <= x)%Q -> (x <= y)%Q -> py_int x <= py_int y.
Proof.
  intros H0 Hxy.
  assert (E : forall z, (0 <= z)%Q -> py_int z = Qfloor z).
  { intros [n d] Hz. unfold py_int, Qfloor. simpl.
    apply Z.quot_div_nonneg; [|lia]. unfold Qle in Hz. simpl in Hz. lia. }
  rewrite (E x H0), (E y) by lra. apply Qfloor_resp_le, Hxy.
Qed.

Lemma later_reachable b b' : later b b' -> reachable b -> reachable b'.
Proof.
  induction 1 as [b | w b' _ IH]; intros Hr; [exact Hr|].
  apply IH, reach_tick, Hr.
Qed.

Lemma tick_fuel_level w :
  state_inv (base w) ->
  (State.fuel_level (base (snd (generate_telemetry_data w)))
   <= State.fuel_level (base w))%Q.
Proof.
  intros Hinv. destruct (inv_fuel_level Hinv) as [H0 _].
  destruct (generate_telemetry_data w) as [r w'] eqn:E. simpl.
  apply tick_run in E. destruct E as (a & _ & _ & Hp).
  destruct (tp_fuel_level_step Hp) as [-> | (dec & [Hd _] & ->)];
    [apply Qle_refl|].
  unfold Qmax'. destruct (Qltb 0 (State.fuel_level (base w) - dec)); lra.
Qed.

Lemma later_fuel_level b b' :
  later b b' -> reachable b ->
  (State.fuel_level b' <= State.fuel_level b)%Q.
Proof.
  induction 1 as [b | w b' _ IH]; intros Hr; [apply Qle_refl|].
  eapply Qle_trans; [apply IH, reach_tick, Hr|].
  apply tick_fuel_level, reachable_inv, Hr.
Qed.

(** X12: the fuel level of the records of one generator never rises and
    stays between 0 and 68. *)
Theorem fuel_level_non_increasing
        (w w1 w2 w3 : world) (r1 r2 : TelemetryData.t) :
  reachable (base w) ->
  generate_telemetry_data w = (Ok r1, w1) ->
  later (base w1) (base w2) ->
  generate_telemetry_data w2 = (Ok r2, w3) ->
  0 <= TelemetryData.fuel_level r2 <= TelemetryData.fuel_level r1
  /\ TelemetryData.fuel_level r1 <= 68.
Proof.
  intros Hreach E1 Hl E2.
  assert (Hr1 : reachable (base w1)).
  { pose proof (reach_tick w Hreach) as H. rewrite E1 in H. exact H. }
  assert (Hr2 : reachable (base w2)) by (eapply later_reachable; eassumption).
  assert (Hr3 : reachable (base w3)).
  { pose proof (reach_tick w2 Hr2) as H. rewrite E2 in H. exact H. }
  pose proof (later_fuel_level Hl Hr1) as L12.
  pose proof (tick_fuel_level w2 (reachable_inv Hr2)) as L23.
  rewrite E2 in L23. simpl in L23.
  destruct (inv_fuel_level (reachable_inv Hr1)) as [_ H68].
  destruct (inv_fuel_level (reachable_inv Hr3)) as [H0 _].
  apply tick_record in E1. apply tick_record in E2.
  rewrite (tp_fuel_level E1), (tp_fuel_level E2).
  split; [split|].
  - change 0 with (py_int 0). apply py_int_mono; [lra | exact H0].
  - apply py_int_mono; [exact H0 | lra].
  - apply (@py_int_bounds (State.fuel_level (base w1)) 68); [lra | exact H68].
Qed.

Lemma fuel_level_non_increasing_witness :
  exists r1 r2 w1 w3,
    generate_telemetry_data demo_world = (Ok r1, w1)
    /\ generate_telemetry_data w1 = (Ok r2, w3)
    /\ TelemetryData.fuel_level r1 = 67
    /\ 0 <= TelemetryData.fuel_level r2 <= TelemetryData.fuel_level r1.
Proof.
  eexists. eexists. eexists. eexists.
  split; [vm_compute; reflexivity|].
  split; [vm_compute; reflexivity|].
  split; [reflexivity|].
  eapply (@fuel_level_non_increasing demo_world).
  - exact (reach_init demo_settings
             (mk_world _base_state (replay demo_entropy)) eq_refl).
  - vm_compute. reflexivity.
  - apply later_now.
  - vm_compute. reflexivity.
Defined.

Lemma pool_count (code : string) :
  (count_occ string_dec _obd_faults_pool code
   <= if string_dec code "P0420"%string then 2 else 1)%nat.
Proof.
  destruct (string_dec code "P0420"%string) as [->|Hne]; [vm_compute; lia|].
  unfold _obd_faults_pool.
  repeat match goal with
         | |- context [count_occ string_dec (?x :: _) code] =>
             rewrite (count_occ_cons_neq string_dec _ (x := x) (y := code))
               by congruence
         | |- context [count_occ string_dec (?x :: ?l) code] =>
             destruct (string_dec x code) as [<-|];
               [vm_compute; lia|]
         end.
  simpl. lia.
Qed.

(** X13: in the fault list of a record every code appears at most once,
    except P0420, which the catalog lists twice and which appears at most
    twice. *)
Theorem obd_faults_multiplicity
        (w w' : world) (r : TelemetryData.t) (code : string) :
  generate_telemetry_data w = (Ok r, w') ->
  (count_occ string_dec (TelemetryData.obd_faults r) code
   <= if string_dec code "P0420"%string then 2 else 1)%nat.
Proof.
  intros E. apply tick_record_coupling in E.
  eapply Nat.le_trans; [apply (tc_faults E) | apply pool_count].
Qed.

Lemma obd_faults_multiplicity_witness :
  let r := fst (telemetry_kwargs fault_world) in
  TelemetryData.obd_faults r = ["P0420"; "P0420"]%string
  /\ (count_occ string_dec (TelemetryData.obd_faults r) "P0420"%string <= 2)%nat.
Proof.
  assert (E : generate_telemetry_data fault_world
              = (Ok (fst (telemetry_kwargs fault_world)),
                 snd (generate_telemetry_data fault_world)))
    by (vm_compute; reflexivity).
  split; [vm_compute; reflexivity|].
  apply (@obd_faults_multiplicity fault_world _ _ "P0420"%string E).
Defined.

Lemma in_range_false lo hi v :
  TelemetryData.in_range lo hi v = false -> v < lo \/ hi < v.
Proof.
  unfold TelemetryData.in_range. intros H. apply andb_false_iff in H.
  destruct H as [H|H]; apply Z.leb_gt in H; lia.
Qed.

Lemma in_check_false f name ok :
  In f (TelemetryData.check name ok) -> f = name /\ ok = false.
Proof.
  unfold TelemetryData.check. destruct ok; simpl; intuition.
Qed.

(** X14: from a reachable state the only field constraints that can fail
    are those of the counters: a tick that raises names no field other than
    fuel_used_gps, odometer_total and odometer_trip. *)
Theorem validation_fails_only_on_counters
        (w : world) (fields : list string) (f : string) :
  reachable (base w) ->
  fst (generate_telemetry_data w) = Raise (ValidationError fields) ->
  In f fields ->
  f = "fuel_used_gps"%string \/ f = "odometer_total"%string
  \/ f = "odometer_trip"%string.
Proof.
  intros Hreach Hraise Hin.
  pose proof (reachable_inv Hreach) as Hinv.
  pose proof (tick_inv w Hinv) as Hinv'.
  destruct (generate_telemetry_data w) as [r w'] eqn:E. simpl in *.
  apply tick_run in E. destruct E as (a & _ & -> & Hp).
  unfold TelemetryData.new in Hraise.
  destruct (TelemetryData.errors a) as [|f0 l] eqn:Herr; [discriminate|].
  injection Hraise as <-. rewrite <- Herr in Hin. clear Herr f0 l.
  destruct Hinv as [_ _ _ _ Ho _ _ _ _].
  destruct Hinv' as [Hi' Hm' Hs' _ _ Hf' _ _ _].
  assert (Hmv : TelemetryData.movement_status a = 0
                \/ TelemetryData.movement_status a = 1).
  { rewrite (tp_movement Hp). destruct (State.ignition (base w') =? 1); lia. }
  pose proof (tp_gsm_signal Hp). pose proof (tp_rpm Hp).
  pose proof (tp_engine_temp Hp). pose proof (tp_engine_load Hp).
  destruct (tp_oil Hp) as (d & Hd & Hoil). rewrite Ho in Hoil.
  destruct (tp_event Hp) as (g & Hg & Hev).
  pose proof (@py_int_bounds (State.fuel_level (base w')) 68
                (proj1 Hf') (proj2 Hf')) as Hfl.
  rewrite <- (tp_fuel_level Hp) in Hfl.
  pose proof (tp_ignition Hp) as Hign. pose proof (tp_speed Hp) as Hspd.
  assert (Hic : (0 <= TelemetryData.instant_consumption a
                 /\ TelemetryData.instant_consumption a <= 35.5)%Q).
  { destruct (Z.eq_dec (TelemetryData.movement_status a) 0) as [E0|NE].
    - destruct (tp_consumption_idle Hp E0). split; lra.
    - destruct (tp_consumption_moving Hp NE). split; lra. }
  assert (Hevt : (TelemetryData.event_type a = Some 1
                  \/ TelemetryData.event_type a = Some 2
                  \/ TelemetryData.event_type a = Some 3
                  \/ TelemetryData.event_type a = None)
                 /\ 10 <= g <= 255).
  { unfold event_spec in Hev. cbn [fst snd] in Hev.
    destruct Hev as [(? & -> & ->)|[(? & -> & ->)|(? & [-> | ->] & ?)]];
      split; auto; lia. }
  destruct Hevt as [Hty Hgv].
  unfold TelemetryData.errors in Hin. repeat rewrite in_app_iff in Hin.
  repeat match type of Hin with
         | _ \/ _ => destruct Hin as [Hin|Hin]
         end;
    apply in_check_false in Hin; destruct Hin as [-> Hr]; auto;
    exfalso.
  - apply in_range_false in Hr. lia.
  - apply in_range_false in Hr. lia.
  - apply in_range_false in Hr. lia.
  - apply in_range_false in Hr. lia.
  - apply in_range_false in Hr. lia.
  - apply in_range_false in Hr. lia.
  - apply in_range_false in Hr. lia.
  - apply in_range_false in Hr. lia.
  - apply in_range_false in Hr. lia.
  - unfold TelemetryData.in_rangeQ in Hr. apply andb_false_iff in Hr.
    destruct Hr as [Hr|Hr];
      [ assert (Qle_bool 0 (TelemetryData.instant_consumption a) = true)
          by (apply Qle_bool_iff; lra)
      | assert (Qle_bool (TelemetryData.instant_consumption a) 32767 = true)
          by (apply Qle_bool_iff; lra) ];
      congruence.
  - unfold TelemetryData.in_range_opt in Hr.
    destruct Hty as [Ht|[Ht|[Ht|Ht]]]; rewrite Ht in Hr; discriminate.
  - rewrite Hg in Hr. unfold TelemetryData.in_range_opt in Hr.
    apply in_range_false in Hr. lia.
Qed.

Lemma wp_random_exact (P : Q -> world -> Prop) w :
  P (unit_of_raw (stream (entropy w) (cursor (entropy w))))
    (mk_world (base w)
       (mk_rng (stream (entropy w)) (S (cursor (entropy w))))) ->
  wp random.random P w.
Proof. unfold wp, random.random, bind, next_raw, ret. simpl. auto. Qed.

Lemma telemetry_kwargs_flags w :
  wp telemetry_kwargs (fun _ w' => flags_after w w') w.
Proof.
  destruct w as [[lat lon total trip fuel oil ign mot spd used] [s c]].
  unfold telemetry_kwargs.
  apply wp_bind, wp_random_exact. cbn [base entropy stream cursor].
  apply wp_bind.
  destruct (Qltb (unit_of_raw (s c)) 0.05) eqn:E1;
    [apply wp_modify | apply wp_ret]; state_goal;
    apply wp_bind, wp_read; state_goal; apply wp_bind.
  all: match goal with
       | |- wp (if ?i =? 1 then _ else _) _ _ =>
           destruct (Z.eqb_spec i 1) as [Ei|Ei]
       end.
  all: try (apply wp_bind, wp_random_exact; cbn [base entropy stream cursor];
            apply wp_bind;
            destruct (Qltb (unit_of_raw (s (S c))) 0.3) eqn:E2;
            [apply wp_modify | apply wp_ret]; state_goal).
  all: repeat wp_step2.
  all: unfold flags_after; cbn [base entropy stream cursor]; state_goal;
    rewrite E1; split; [reflexivity|].
  all: try (rewrite (proj2 (Z.eqb_eq _ _) Ei), E2; reflexivity).
  all: try (rewrite (proj2 (Z.eqb_neq _ _) Ei); reflexivity).
Qed.

Lemma tick_world w :
  snd (generate_telemetry_data w) = snd (telemetry_kwargs w).
Proof.
  unfold generate_telemetry_data, bind, ret.
  destruct (telemetry_kwargs w). reflexivity.
Qed.

(** From every state of the invariant some entropy makes the next tick a
    moving one, which adds at least 200 to the total odometer. *)
Lemma force_moving (b : State.t) :
  state_inv b ->
  exists g,
    State.total_odo b + 200
    <= State.total_odo (base (snd (generate_telemetry_data (mk_world b g)))).
Proof.
  intros Hinv.
  set (r1 := if State.ignition b =? 0 then 0%N else 4503599627370496%N).
  set (r2 := if State.in_motion b =? 0 then 0%N else 4503599627370496%N).
  exists (replay [r1; r2]).
  set (w := mk_world b (replay [r1; r2])).
  rewrite tick_world.
  pose proof (telemetry_kwargs_spec w) as Hp.
  pose proof (telemetry_kwargs_flags w) as Hf.
  unfold wp in Hp, Hf. unfold flags_after in Hf.
  cbn [w base entropy replay stream cursor nth] in Hf.
  destruct Hf as [Hign Hmot].
  assert (Hon : State.ignition (base (snd (telemetry_kwargs w))) = 1).
  { rewrite Hign. subst r1.
    destruct (inv_ignition Hinv) as [-> | ->]; vm_compute; reflexivity. }
  rewrite <- Hign, Hon in Hmot. simpl in Hmot.
  assert (Hmv : State.in_motion (base (snd (telemetry_kwargs w))) = 1).
  { rewrite Hmot. subst r2.
    destruct (inv_in_motion Hinv) as [-> | ->]; vm_compute; reflexivity. }
  pose proof (tp_movement Hp) as Hm. rewrite Hon, Hmv in Hm. simpl in Hm.
  pose proof (tp_total_odo_step Hp) as Ht. rewrite Hm in Ht. simpl in Ht.
  destruct Ht as (inc & Hinc & ->). subst w. simpl. lia.
Qed.

Lemma odometer_reaches (n : nat) :
  exists b, reachable b /\ 2456789 + 200 * Z.of_nat n <= State.total_odo b.
Proof.
  induction n as [|n (b & Hb & Hodo)].
  - exists (base (snd (__init__ demo_settings
                         (mk_world _base_state (replay []))))).
    split; [apply reach_init; reflexivity|].
    pose proof (init_spec demo_settings (mk_world _base_state (replay [])))
      as H. unfold wp in H. destruct H as (i & m & s & _ & _ & _ & _ & ->).
    simpl. lia.
  - destruct (force_moving (reachable_inv Hb)) as (g & Hg).
    exists (base (snd (generate_telemetry_data (mk_world b g)))). split.
    + apply (reach_tick (mk_world b g)). exact Hb.
    + lia.
Qed.

Lemma overflow_reachable :
  exists b, reachable b /\ 2147483647 < State.total_odo b.
Proof.
  destruct (odometer_reaches (Z.to_nat 10725135)) as (b & Hb & Hodo).
  exists b. split; [exact Hb|].
  rewrite Z2Nat.id in Hodo by lia. lia.
Qed.

Lemma tick_overflow w :
  2147483647 < State.total_odo (base w) ->
  exists fields,
    fst (generate_telemetry_data w) = Raise (ValidationError fields)
    /\ In "odometer_total"%string fields.
Proof.
  intros Hodo. pose proof (tick_monotone w) as (Ht & _ & _).
  destruct (generate_telemetry_data w) as [r w'] eqn:E. simpl in *.
  apply tick_run in E. destruct E as (a & _ & -> & Hp).
  assert (Hin : In "odometer_total"%string (TelemetryData.errors a)).
  { unfold TelemetryData.errors. repeat rewrite in_app_iff.
    do 11 right. left.
    assert (Hr : TelemetryData.in_range 0 2147483647
                   (TelemetryData.odometer_total a) = false).
    { unfold TelemetryData.in_range. rewrite (tp_odometer_total Hp).
      apply andb_false_iff. right. apply Z.leb_gt. lia. }
    rewrite Hr. left. reflexivity. }
  exists (TelemetryData.errors a). split; [|exact Hin].
  unfold TelemetryData.new.
  destruct (TelemetryData.errors a); [contradiction | reflexivity].
Qed.

Lemma validation_fails_only_on_counters_witness :
  exists w fields,
    reachable (base w)
    /\ fst (generate_telemetry_data w) = Raise (ValidationError fields)
    /\ In "odometer_total"%string fields
    /\ ("odometer_total"%string = "fuel_used_gps"%string
        \/ "odometer_total"%string = "odometer_total"%string
        \/ "odometer_total"%string = "odometer_trip"%string).
Proof.
  destruct overflow_reachable as (b & Hb & Hodo).
  destruct (tick_overflow (mk_world b (replay [])) Hodo)
    as (fields & Hraise & Hin).
  exists (mk_world b (replay [])), fields.
  split; [exact Hb|]. split; [exact Hraise|]. split; [exact Hin|].
  exact (@validation_fails_only_on_counters (mk_world b (replay [])) fields
           "odometer_total"%string Hb Hraise Hin).
Defined.

(** X15: the total odometer can pass 2147483647, the bound of its field;
    from such a state, which is reachable, every later tick raises on
    odometer_total and no record is produced any more. *)
Theorem odometer_overflow_is_final :
  exists b,
    reachable b
    /\ forall w, later b (base w) ->
         exists fields,
           fst (generate_telemetry_data w) = Raise (ValidationError fields)
           /\ In "odometer_total"%string fields.
Proof.
  destruct overflow_reachable as (b & Hb & Hodo).
  exists b. split; [exact Hb|].
  intros w Hl. apply tick_overflow.
  apply later_monotone in Hl. lia.
Qed.

(** X16: constructing a generator, whether it returns or raises, leaves
    the position, both odometers, the fuel level, the oil level and the
    cumulative fuel used of the shared state as they were; it redraws only
    the ignition, the motion flag and the speed, with a speed in [0,80]
    that is 0 when the ignition is off. *)
Theorem init_keeps_counters (settings : Settings.t) (w : world) :
  let b := base w in
  let b' := base (snd (__init__ settings w)) in
  State.lat b' = State.lat b /\ State.lon b' = State.lon b
  /\ State.total_odo b' = State.total_odo b
  /\ State.trip_odo b' = State.trip_odo b
  /\ State.fuel_level b' = State.fuel_level b
  /\ State.oil_level b' = State.oil_level b
  /\ State.fuel_used_total b' = State.fuel_used_total b
  /\ (State.ignition b' = 0 \/ State.ignition b' = 1)
  /\ (State.in_motion b' = 0 \/ State.in_motion b' = 1)
  /\ 0 <= State.speed b' <= 80
  /\ (State.ignition b' = 0 -> State.speed b' = 0).
Proof.
  cbv zeta. pose proof (init_spec settings w) as H. unfold wp in H.
  destruct H as (i & m & s & Hi & Hm & Hs & Hs0 & ->).
  simpl. repeat split; auto; lia.
Qed.

(** * Further properties: the position *)




(** * Further properties: the timestamp of a packet *)

Lemma of_lu_digit r d :
  (r < 10)%N ->
  DecimalPos.Unsigned.of_lu (digit r d)
  = (r + 10 * DecimalPos.Unsigned.of_lu d)%N.
Proof.
  intros H.
  assert (E : (r = 0 \/ r = 1 \/ r = 2 \/ r = 3 \/ r = 4 \/ r = 5 \/ r = 6
               \/ r = 7 \/ r = 8 \/ r = 9)%N) by lia.
  rewrite DecimalPos.Unsigned.of_lu_eqn.
  repeat (destruct E as [->|E]; [reflexivity|]). subst r. reflexivity.
Qed.

Lemma of_lu_little_digits k : forall n,
  (n < 10 ^ N.of_nat k)%N ->
  DecimalPos.Unsigned.of_lu (little_digits k n) = n.
Proof.
  induction k as [|k IH]; intros n H.
  - simpl in *. lia.
  - cbn [little_digits]. rewrite of_lu_digit by (apply N.mod_lt; lia).
    rewrite IH.
    + pose proof (N.div_mod n 10). lia.
    + replace (N.of_nat (S k)) with (N.succ (N.of_nat k)) in H by lia.
      rewrite N.pow_succ_r' in H.
      apply N.Div0.div_lt_upper_bound. exact H.
Qed.

Lemma nb_digits_digit r d :
  Decimal.nb_digits (digit r d) = S (Decimal.nb_digits d).
Proof.
  unfold digit. destruct r as [|p]; [reflexivity|].
  do 4 (destruct p as [p|p|]; try reflexivity).
Qed.

Lemma nb_digits_little_digits k n :
  Decimal.nb_digits (little_digits k n) = k.
Proof.
  revert n. induction k as [|k IH]; intros n; [reflexivity|].
  cbn [little_digits]. rewrite nb_digits_digit, IH. reflexivity.
Qed.

Lemma to_uint_little_digits k n :
  (n < 10 ^ N.of_nat k)%N ->
  N.to_uint n = Decimal.unorm (Decimal.rev (little_digits k n)).
Proof.
  intros H. rewrite <- DecimalN.Unsigned.to_of. f_equal.
  unfold N.of_uint. rewrite DecimalPos.Unsigned.of_lu_rev.
  symmetry. apply of_lu_little_digits. exact H.
Qed.

Lemma string_of_uint_length d :
  String.length (NilEmpty.string_of_uint d) = Decimal.nb_digits d.
Proof. induction d; simpl; congruence. Qed.

Lemma string_of_uint_digits d :
  all_digits (NilEmpty.string_of_uint d) = true.
Proof. induction d; simpl; auto. Qed.

(** [str(n)] is made of digits, at most [k] of them below [10^k]. *)
Lemma py_str_digits n : all_digits (py_str n) = true.
Proof. apply string_of_uint_digits. Qed.

Lemma py_str_length (k : nat) n :
  (0 < k)%nat -> 0 <= n < 10 ^ Z.of_nat k ->
  (String.length (py_str n) <= k)%nat.
Proof.
  intros Hk Hn. unfold py_str. rewrite string_of_uint_length.
  rewrite (@to_uint_little_digits k).
  - etransitivity; [apply DecimalFacts.nb_digits_unorm|].
    + intros E. apply DecimalFacts.rev_nil_inv in E.
      apply (f_equal Decimal.nb_digits) in E.
      rewrite nb_digits_little_digits in E. simpl in E. lia.
    + rewrite DecimalFacts.nb_digits_rev, nb_digits_little_digits. lia.
  - apply N2Z.inj_lt. rewrite Z2N.id by lia.
    rewrite N2Z.inj_pow, nat_N_Z. simpl. lia.
Qed.

Lemma zfill_length w : forall s,
  (String.length s <= w)%nat -> String.length (zfill w s) = w.
Proof.
  induction w as [|w IH]; intros s H.
  - simpl. lia.
  - cbn [zfill]. destruct (S w - String.length s)%nat eqn:E.
    + lia.
    + simpl. f_equal. apply IH. lia.
Qed.

Lemma zfill_digits w : forall s,
  all_digits s = true -> all_digits (zfill w s) = true.
Proof.
  induction w as [|w IH]; intros s H.
  - simpl. exact H.
  - cbn [zfill]. destruct (S w - String.length s)%nat; [exact H|].
    simpl. apply IH. exact H.
Qed.

Lemma matches_digits s :
  all_digits s = true -> matches (repeat Digit (String.length s)) s = true.
Proof.
  induction s as [|c s IH]; simpl; [reflexivity|].
  intros H. apply andb_true_iff in H. destruct H as [Hc Hs].
  rewrite Hc. simpl. auto.
Qed.

(** [%0kd] of a number below [10^k] is exactly [k] digits. *)
Lemma pad_matches (k : nat) n :
  (0 < k)%nat -> 0 <= n < 10 ^ Z.of_nat k ->
  matches (repeat Digit k) (pad k n) = true.
Proof.
  intros Hk Hn. unfold pad.
  rewrite <- (@zfill_length k (py_str n)) at 1
    by (apply py_str_length; assumption).
  apply matches_digits, zfill_digits, py_str_digits.
Qed.

Lemma matches_app ps s : forall qs t,
  matches ps s = true -> matches qs t = true ->
  matches (ps ++ qs) (s ++ t) = true.
Proof.
  revert s. induction ps as [|p ps IH]; intros s qs t Hs Ht.
  - destruct s; [exact Ht | discriminate].
  - destruct s as [|c s]; [discriminate|]. simpl in *.
    apply andb_true_iff in Hs. destruct Hs as [Hc Hs].
    rewrite Hc. simpl. apply IH; assumption.
Qed.

Lemma replace_skips ps : forall s t,
  matches ps s = true -> forallb no_plus ps = true ->
  replace "+00:00" "Z" (s ++ t) = (s ++ replace "+00:00" "Z" t)%string.
Proof.
  unfold replace. induction ps as [|p ps IH]; intros s t Hs Hp.
  - destruct s; [reflexivity | discriminate].
  - destruct s as [|c s]; [discriminate|]. simpl in Hs, Hp.
    apply andb_true_iff in Hs. destruct Hs as [Hc Hs].
    apply andb_true_iff in Hp. destruct Hp as [Hp Hps].
    change (String c s ++ t)%string with (String c (s ++ t)).
    cbn [replace_from String.prefix].
    destruct (ascii_dec "+" c) as [<-|_].
    + unfold no_plus in Hp. rewrite Hc in Hp. discriminate.
    + rewrite (IH s t Hs Hps). reflexivity.
Qed.

Lemma digits_no_plus k : forallb no_plus (repeat Digit k) = true.
Proof. induction k; simpl; auto. Qed.

(** X18: whatever the clock reads, the timestamp of a packet has the shape
    [YYYY-MM-DDTHH:MM:SS.ffffffZ]: the replacement finds the UTC offset at
    the end of the ISO text and nowhere else. *)
Theorem timestamp_shape (now : datetime) :
  datetime_ok now ->
  timestamp_format (_get_current_timestamp now) = true.
Proof.
  intros [Hy Hmo Hd Hh Hmi Hs Hus].
  assert (Py := @pad_matches 4 (year now) ltac:(lia) ltac:(simpl; lia)).
  assert (Pmo := @pad_matches 2 (month now) ltac:(lia) ltac:(simpl; lia)).
  assert (Pd := @pad_matches 2 (day now) ltac:(lia) ltac:(simpl; lia)).
  assert (Ph := @pad_matches 2 (hour now) ltac:(lia) ltac:(simpl; lia)).
  assert (Pmi := @pad_matches 2 (minute now) ltac:(lia) ltac:(simpl; lia)).
  assert (Ps := @pad_matches 2 (second now) ltac:(lia) ltac:(simpl; lia)).
  assert (Pus := @pad_matches 6 (microsecond now) ltac:(lia) ltac:(simpl; lia)).
  assert (L : forall c rest,
            c <> "+"%char ->
            replace "+00:00" "Z" (String c rest)
            = String c (replace "+00:00" "Z" rest)).
  { intros c rest Hc. unfold replace. cbn [replace_from String.prefix].
    destruct (ascii_dec "+" c); [congruence | reflexivity]. }
  unfold _get_current_timestamp, isoformat.
  rewrite (@replace_skips _ _ _ Py (digits_no_plus 4)).
  change ("-" ++ ?x)%string with (String "-" x). rewrite L by discriminate.
  rewrite (@replace_skips _ _ _ Pmo (digits_no_plus 2)).
  change ("-" ++ ?x)%string with (String "-" x). rewrite L by discriminate.
  rewrite (@replace_skips _ _ _ Pd (digits_no_plus 2)).
  change ("T" ++ ?x)%string with (String "T" x). rewrite L by discriminate.
  rewrite (@replace_skips _ _ _ Ph (digits_no_plus 2)).
  change (":" ++ ?x)%string with (String ":" x). rewrite L by discriminate.
  rewrite (@replace_skips _ _ _ Pmi (digits_no_plus 2)).
  change (":" ++ ?x)%string with (String ":" x). rewrite L by discriminate.
  rewrite (@replace_skips _ _ _ Ps (digits_no_plus 2)).
  change ("." ++ ?x)%string with (String "." x). rewrite L by discriminate.
  rewrite (@replace_skips _ _ _ Pus (digits_no_plus 6)).
  change (replace "+00:00" "Z" "+00:00") with "Z"%string.
  unfold timestamp_format.
  change (repeat Digit 4 ++ [Lit "-"; Digit; Digit; Lit "-"; Digit; Digit; Lit "T";
       Digit; Digit; Lit ":"; Digit; Digit; Lit ":"; Digit; Digit; Lit "."]
       ++ repeat Digit 6 ++ [Lit "Z"])
    with (repeat Digit 4 ++ Lit "-" :: repeat Digit 2 ++ Lit "-" ::
          repeat Digit 2 ++ Lit "T" :: repeat Digit 2 ++ Lit ":" ::
          repeat Digit 2 ++ Lit ":" :: repeat Digit 2 ++ Lit "." ::
          repeat Digit 6 ++ [Lit "Z"]).
  repeat (first [ apply matches_app; [assumption|]
                | cbn [matches pat_ok Ascii.eqb Bool.eqb andb] ]).
  reflexivity.
Qed.

Lemma timestamp_shape_witness :
  datetime_ok noon /\ timestamp_format (_get_current_timestamp noon) = true.
Proof.
  assert (H : datetime_ok noon) by (split; simpl; lia).
  split; [exact H | exact (timestamp_shape H)].
Defined.

(** * Further properties: the connection manager (app/api/websocket.py) *)

Lemma py_in_count x l :
  py_in x l = true <-> (0 < count_occ Nat.eq_dec l x)%nat.
Proof.
  induction l as [|y l IH]; simpl; [split; [discriminate | lia]|].
  destruct (Nat.eqb_spec y x) as [->|Hne].
  - destruct (Nat.eq_dec x x); [|congruence]. simpl. split; [lia | auto].
  - destruct (Nat.eq_dec y x); [congruence|]. simpl. exact IH.
Qed.

Lemma py_remove_count x l y :
  count_occ Nat.eq_dec (py_remove x l) y
  = if Nat.eq_dec x y then Nat.pred (count_occ Nat.eq_dec l y)
    else count_occ Nat.eq_dec l y.
Proof.
  induction l as [|z l IH]; simpl.
  - destruct (Nat.eq_dec x y); reflexivity.
  - destruct (Nat.eqb_spec z x) as [->|Hne].
    + destruct (Nat.eq_dec x y); reflexivity.
    + simpl. rewrite IH.
      destruct (Nat.eq_dec x y) as [->|]; destruct (Nat.eq_dec z y);
        try reflexivity; congruence.
Qed.

Lemma py_remove_absent x l : py_in x l = false -> py_remove x l = l.
Proof.
  induction l as [|y l IH]; simpl; [reflexivity|].
  destruct (Nat.eqb y x); simpl; [discriminate|].
  intros H. rewrite (IH H). reflexivity.
Qed.

(** X19: [disconnect] removes one registration of the connection and none
    of any other; for a connection that was never registered it changes
    nothing but the flag; it never touches the generator; and it never
    leaves the manager flagged as running with no connection. *)
Theorem disconnect_spec (websocket : nat) (self : ConnectionManager.t) :
  let self' := ConnectionManager.disconnect websocket self in
  (forall c,
      count_occ Nat.eq_dec (ConnectionManager.active_connections self') c
      = if Nat.eq_dec websocket c
        then Nat.pred (count_occ Nat.eq_dec
                         (ConnectionManager.active_connections self) c)
        else count_occ Nat.eq_dec
               (ConnectionManager.active_connections self) c)
  /\ (~ In websocket (ConnectionManager.active_connections self) ->
      ConnectionManager.active_connections self'
      = ConnectionManager.active_connections self)
  /\ ConnectionManager.generator self' = ConnectionManager.generator self
  /\ (ConnectionManager.active_connections self' = [] ->
      ConnectionManager.is_running self' = false)
  /\ (ConnectionManager.active_connections self' <> [] ->
      ConnectionManager.is_running self'
      = ConnectionManager.is_running self).
Proof.
  cbv zeta. unfold ConnectionManager.disconnect.
  destruct self as [conns gen run]. cbn [ConnectionManager.active_connections
    ConnectionManager.generator ConnectionManager.is_running].
  assert (Hrem : py_in websocket conns = false -> py_remove websocket conns = conns)
    by apply py_remove_absent.
  assert (Hcount : forall c,
    count_occ Nat.eq_dec
      (if py_in websocket conns then py_remove websocket conns else conns) c
    = if Nat.eq_dec websocket c then Nat.pred (count_occ Nat.eq_dec conns c)
      else count_occ Nat.eq_dec conns c).
  { intros c. destruct (py_in websocket conns) eqn:E.
    - apply py_remove_count.
    - rewrite <- (Hrem eq_refl) at 1. apply py_remove_count. }
  assert (Habsent : ~ In websocket conns -> py_in websocket conns = false).
  { intros Hn. destruct (py_in websocket conns) eqn:E; [|reflexivity].
    apply py_in_count in E. exfalso. apply Hn.
    apply (count_occ_In Nat.eq_dec). lia. }
  destruct (py_in websocket conns) eqn:Ein;
    cbn [ConnectionManager.active_connections ConnectionManager.generator
         ConnectionManager.is_running];
    [set (l := py_remove websocket conns) in * | set (l := conns) in *];
    destruct l as [|c0 l0] eqn:El; destruct run;
    cbn [List.length Nat.eqb andb ConnectionManager._stop_broadcasting
         ConnectionManager.active_connections ConnectionManager.generator
         ConnectionManager.is_running];
    repeat split; auto; try congruence;
    intros Hn; specialize (Habsent Hn); congruence.
Qed.
